(** * LanguageServerProxy: a shallow embedding and its properties

    The development embeds the class [LanguageServerProxy] (the language
    server connection proxy) as state-passing functions over a [World]:
    the fields of the proxy object, the heap of promise, socket and server
    objects the proxy creates, and the chronological trace of the effects
    it performs (socket operations, protocol messages, log calls, listener
    invocations).

    An [async] method is lowered the way a compiler lowers it: a
    synchronous prefix that runs up to the first [await], and one
    resumption function per [await] point, taking the settled value of the
    awaited promise.  The locals that stay live across an [await] are kept
    in a [Frame].  A call made on the channel, [sendRequest] or
    [sendNotification], returns or throws; which of the two is up to the
    channel and is an input of the resumption that makes the call. *)

From Stdlib Require Import ZArith String List Bool Lia DecimalString.
From stdpp Require Import base option list.
Import ListNotations.

Local Open Scope string_scope.
Local Open Scope list_scope.
Set Warnings "-register-all".

(** ** JavaScript values *)

(** Values of type [any]: errors, request parameters, results.  The
    numbers that occur are integers; [NaN] is not represented. *)
Inductive JsValue : Type :=
| JsUndefined
| JsNull
| JsBool (b : bool)
| JsNumber (z : Z)
| JsString (s : string)
| JsArray (items : list JsValue)
| JsObject (fields : list (string * JsValue)).

(** The test performed by [if (v)] and [v ? a : b]. *)
Definition truthy (v : JsValue) : bool :=
  match v with
  | JsUndefined | JsNull => false
  | JsBool b => b
  | JsNumber z => negb (z =? 0)%Z
  | JsString s => negb (String.eqb s "")
  | JsArray _ | JsObject _ => true
  end.

(** [Array.isArray(v) ? v : [v]] *)
Definition as_array (v : JsValue) : list JsValue :=
  match v with
  | JsArray items => items
  | _ => [v]
  end.

(** ['text' + n] for an integer [n]. *)
Definition string_of_Z (z : Z) : string := NilEmpty.string_of_int (Z.to_int z).

(** How a promise settles. *)
Inductive Settled (A : Type) : Type :=
| Fulfilled (a : A)
| Rejected (reason : JsValue).
Arguments Fulfilled {A} a.
Arguments Rejected {A} reason.

(** ** Protocol data *)

Record LspRequest : Type := {
  method : string;
  params : JsValue;
  isNotification : bool;
}.

Module ResponseMessage.
Record t : Type := {
  jsonrpc : string;
  id : JsValue;
  result : option JsValue;   (* [None]: the property is absent *)
  error : option JsValue;
}.

Definition set_result (v : JsValue) (r : t) : t :=
  {| jsonrpc := jsonrpc r; id := id r; result := Some v; error := error r |}.

Definition set_error (e : JsValue) (r : t) : t :=
  {| jsonrpc := jsonrpc r; id := id r; result := result r; error := Some e |}.
End ResponseMessage.

Record WorkspaceFolder : Type := {
  uri : string;
  name : string;
}.

Definition WorkspaceFolder_value (f : WorkspaceFolder) : JsValue :=
  JsObject [("uri", JsString (uri f)); ("name", JsString (name f))].

(** [MessageType] of the language server protocol. *)
Module MessageType.
Definition Error : Z := 1.
Definition Warning : Z := 2.
Definition Info : Z := 3.
Definition Log : Z := 4.
End MessageType.

(** The methods of the notification types the proxy names. *)
Definition InitializedNotification_type : string := "initialized".
Definition ExitNotification_type : string := "exit".

(** ** Objects the proxy creates *)

(** A [MessageConnection] made by [createMessageConnection] over a socket:
    every call yields a new object, told apart by [conn_id].  Its
    [sendRequest] returns a promise that the backend's reply, or the loss
    of the channel, settles; its [sendNotification] writes and returns. *)
Record MessageConnection : Type := {
  conn_id : nat;
  conn_socket : nat;
}.

(** Methods of [Logger]. *)
Inductive LogLevel : Type := debug | info | log | warn | error_level.

(** Events of the proxy's [EventEmitter]. *)
Inductive EventName : Type := ev_close | ev_exit | ev_connect.

Definition EventName_eqb (a b : EventName) : bool :=
  match a, b with
  | ev_close, ev_close | ev_exit, ev_exit | ev_connect, ev_connect => true
  | _, _ => false
  end.

(** A listener is a callback of the caller; it is identified by a number
    and assumed not to call a method of the proxy while it runs.  What it
    can read of the proxy is the getter [isClosed]. *)
Definition Listener : Type := nat.

(** What the proxy does to the outside, in the order it does it. *)
Inductive Effect : Type :=
| SocketConnect (s : nat) (port : Z) (host : string)   (* socket.connect(port, host) *)
| ServerListen (srv : nat) (port : Z)                  (* server.listen(port, cb) *)
| ServerClose (srv : nat)                              (* server.close() *)
| OnNotification (c : MessageConnection)               (* the log-message handler is registered on c *)
| Listen (c : MessageConnection)                       (* c.listen() *)
| SendRequest (c : MessageConnection) (m : string) (args : list JsValue)
| SendNotification (c : MessageConnection) (m : string) (args : list JsValue)
| LogCall (level : LogLevel) (message : string)        (* logger.<level>(message) *)
| Invoke (ev : EventName) (l : Listener)               (* a listener of ev is called *)
| Uncaught (e : JsValue).                              (* an emitter throws e: the event had no listener *)

(** Socket and server operations and protocol messages, as opposed to
    logging and listener calls. *)
Definition is_io (e : Effect) : bool :=
  match e with
  | LogCall _ _ | Invoke _ _ | Uncaught _ => false
  | _ => true
  end.

(** The effects that open a connection attempt. *)
Definition is_attempt (e : Effect) : bool :=
  match e with
  | SocketConnect _ _ _ | ServerListen _ _ => true
  | _ => false
  end.

(** ** Cancelable *)

Inductive PromiseState : Type :=
| Pending
| Resolved (c : MessageConnection)
| RejectedWith (reason : JsValue).

(** The cancel hook of the passive strategy closes the listening server
    (and rejects, which [cancel] below does for every attempt). *)
Inductive CancelHook : Type :=
| CloseServer (srv : nat).

(** Modelled from the spec: the class [Cancelable] of [../utils/cancelable]
    is not part of the sources.  A cancelable task is constructed with an
    executor receiving [(resolve, reject, registerOnCancel)]; it exposes the
    eventual result [promise] and [cancel(reason?)].  Here it is the promise
    state together with the registered cancel hook, if any. *)
Record Cancelable : Type := {
  promise : PromiseState;
  onCancel : option CancelHook;
}.

(** Modelled from the spec: the default cancellation reason. *)
Definition default_cancel_reason : JsValue := JsString "cancelled".

(** The promise [connect()] hands to its caller. *)
Inductive ConnPromise : Type :=
| PromiseResolve (c : MessageConnection)   (* Promise.resolve(this.clientConnection) *)
| CancelablePromise (p : nat).             (* this.connectingPromise.promise *)

(** A dialed socket remembers the attempt its [connect] handler resolves;
    an accepted socket has no such handler. *)
Inductive SocketInfo : Type :=
| Dialed (attempt : nat)
| Accepted (srv : nat).

(** A server made by [net.createServer] remembers the attempt its callbacks
    settle, whether [rej] is still attached as its [error] listener, and
    whether [server.close()] was called. *)
Record ServerInfo : Type := {
  srv_attempt : nat;
  srv_rej_attached : bool;
  srv_closed : bool;
}.

(** ** The proxy object and the world around it *)

Record LanguageServerProxy : Type := {
  error : JsValue;                       (* any | null *)
  initialized : bool;
  socket : option nat;
  clientConnection : option MessageConnection;
  closed : bool;
  targetHost : string;
  targetPort : Z;
  lspOptions_verbose : bool;             (* this.lspOptions.verbose *)
  eventEmitter : list (EventName * Listener);
  connectingPromise : option nat;        (* Cancelable<MessageConnection> | null *)
}.

Record World : Type := {
  this : LanguageServerProxy;
  cancelables : list Cancelable;         (* the Cancelable objects, by address *)
  sockets : list SocketInfo;
  servers : list ServerInfo;
  connections : nat;                     (* MessageConnections created so far *)
  trace : list Effect;
  isClosed_seen : list (Listener * bool); (* what each listener called so far
                                             found in isClosed when it was called *)
}.

(** [get isClosed()] *)
Definition isClosed (w : World) : bool := closed (this w).

(** The constructor. *)
Definition new_LanguageServerProxy (port : Z) (host : string) (verbose : bool)
  : LanguageServerProxy :=
  {| error := JsNull; initialized := false; socket := None;
     clientConnection := None; closed := false;
     targetHost := host; targetPort := port; lspOptions_verbose := verbose;
     eventEmitter := []; connectingPromise := None |}.

Definition new_World (port : Z) (host : string) (verbose : bool) : World :=
  {| this := new_LanguageServerProxy port host verbose;
     cancelables := []; sockets := []; servers := [];
     connections := 0; trace := []; isClosed_seen := [] |}.

(** Field assignments. *)
Definition set_error (e : JsValue) (t : LanguageServerProxy) :=
  {| error := e; initialized := initialized t; socket := socket t;
     clientConnection := clientConnection t; closed := closed t;
     targetHost := targetHost t; targetPort := targetPort t;
     lspOptions_verbose := lspOptions_verbose t;
     eventEmitter := eventEmitter t; connectingPromise := connectingPromise t |}.

Definition set_initialized (b : bool) (t : LanguageServerProxy) :=
  {| error := error t; initialized := b; socket := socket t;
     clientConnection := clientConnection t; closed := closed t;
     targetHost := targetHost t; targetPort := targetPort t;
     lspOptions_verbose := lspOptions_verbose t;
     eventEmitter := eventEmitter t; connectingPromise := connectingPromise t |}.

Definition set_socket (s : option nat) (t : LanguageServerProxy) :=
  {| error := error t; initialized := initialized t; socket := s;
     clientConnection := clientConnection t; closed := closed t;
     targetHost := targetHost t; targetPort := targetPort t;
     lspOptions_verbose := lspOptions_verbose t;
     eventEmitter := eventEmitter t; connectingPromise := connectingPromise t |}.

Definition set_clientConnection (c : option MessageConnection) (t : LanguageServerProxy) :=
  {| error := error t; initialized := initialized t; socket := socket t;
     clientConnection := c; closed := closed t;
     targetHost := targetHost t; targetPort := targetPort t;
     lspOptions_verbose := lspOptions_verbose t;
     eventEmitter := eventEmitter t; connectingPromise := connectingPromise t |}.

Definition set_closed (b : bool) (t : LanguageServerProxy) :=
  {| error := error t; initialized := initialized t; socket := socket t;
     clientConnection := clientConnection t; closed := b;
     targetHost := targetHost t; targetPort := targetPort t;
     lspOptions_verbose := lspOptions_verbose t;
     eventEmitter := eventEmitter t; connectingPromise := connectingPromise t |}.

Definition set_targetPort (p : Z) (t : LanguageServerProxy) :=
  {| error := error t; initialized := initialized t; socket := socket t;
     clientConnection := clientConnection t; closed := closed t;
     targetHost := targetHost t; targetPort := p;
     lspOptions_verbose := lspOptions_verbose t;
     eventEmitter := eventEmitter t; connectingPromise := connectingPromise t |}.

Definition set_verbose (b : bool) (t : LanguageServerProxy) :=
  {| error := error t; initialized := initialized t; socket := socket t;
     clientConnection := clientConnection t; closed := closed t;
     targetHost := targetHost t; targetPort := targetPort t;
     lspOptions_verbose := b;
     eventEmitter := eventEmitter t; connectingPromise := connectingPromise t |}.

Definition set_eventEmitter (l : list (EventName * Listener)) (t : LanguageServerProxy) :=
  {| error := error t; initialized := initialized t; socket := socket t;
     clientConnection := clientConnection t; closed := closed t;
     targetHost := targetHost t; targetPort := targetPort t;
     lspOptions_verbose := lspOptions_verbose t;
     eventEmitter := l; connectingPromise := connectingPromise t |}.

Definition set_connectingPromise (p : option nat) (t : LanguageServerProxy) :=
  {| error := error t; initialized := initialized t; socket := socket t;
     clientConnection := clientConnection t; closed := closed t;
     targetHost := targetHost t; targetPort := targetPort t;
     lspOptions_verbose := lspOptions_verbose t;
     eventEmitter := eventEmitter t; connectingPromise := p |}.

(** [this.<field> = ...] *)
Definition assign (f : LanguageServerProxy -> LanguageServerProxy) (w : World) : World :=
  {| this := f (this w); cancelables := cancelables w; sockets := sockets w;
     servers := servers w; connections := connections w; trace := trace w;
     isClosed_seen := isClosed_seen w |}.

(** Performing an effect appends it to the trace. *)
Definition perform (e : Effect) (w : World) : World :=
  {| this := this w; cancelables := cancelables w; sockets := sockets w;
     servers := servers w; connections := connections w;
     trace := trace w ++ [e]; isClosed_seen := isClosed_seen w |}.

Definition with_cancelables (cs : list Cancelable) (w : World) : World :=
  {| this := this w; cancelables := cs; sockets := sockets w;
     servers := servers w; connections := connections w; trace := trace w;
     isClosed_seen := isClosed_seen w |}.

Definition with_sockets (ss : list SocketInfo) (w : World) : World :=
  {| this := this w; cancelables := cancelables w; sockets := ss;
     servers := servers w; connections := connections w; trace := trace w;
     isClosed_seen := isClosed_seen w |}.

Definition with_servers (ss : list ServerInfo) (w : World) : World :=
  {| this := this w; cancelables := cancelables w; sockets := sockets w;
     servers := ss; connections := connections w; trace := trace w;
     isClosed_seen := isClosed_seen w |}.

Definition with_connections (n : nat) (w : World) : World :=
  {| this := this w; cancelables := cancelables w; sockets := sockets w;
     servers := servers w; connections := n; trace := trace w;
     isClosed_seen := isClosed_seen w |}.

Definition perform_all (es : list Effect) (w : World) : World :=
  {| this := this w; cancelables := cancelables w; sockets := sockets w;
     servers := servers w; connections := connections w;
     trace := trace w ++ es; isClosed_seen := isClosed_seen w |}.

(** The listeners [ls] are called: each finds in [isClosed] what the
    proxy holds at that moment. *)
Definition called (ls : list Listener) (w : World) : World :=
  {| this := this w; cancelables := cancelables w; sockets := sockets w;
     servers := servers w; connections := connections w; trace := trace w;
     isClosed_seen := isClosed_seen w ++ map (fun l => (l, isClosed w)) ls |}.

(** ** Cancelable tasks, promises and the event emitter *)

(** [new Cancelable(executor)]: a new pending task; the hook is the one the
    executor registers, if it registers one. *)
Definition new_Cancelable (hook : option CancelHook) (w : World) : World * nat :=
  (with_cancelables (cancelables w ++ [{| promise := Pending; onCancel := hook |}]) w,
   length (cancelables w)).

(** Settling a promise; settling a settled promise does nothing. *)
Definition settle (p : nat) (s : PromiseState) (w : World) : World :=
  match cancelables w !! p with
  | Some c =>
      match promise c with
      | Pending =>
          with_cancelables
            (<[p := {| promise := s; onCancel := onCancel c |}]> (cancelables w)) w
      | _ => w
      end
  | None => w
  end.

Definition resolve (p : nat) (c : MessageConnection) : World -> World :=
  settle p (Resolved c).

Definition reject (p : nat) (reason : JsValue) : World -> World :=
  settle p (RejectedWith reason).

(** [server.close()] *)
Definition server_close (srv : nat) (w : World) : World :=
  let w := match servers w !! srv with
           | Some server =>
               with_servers
                 (<[srv := {| srv_attempt := srv_attempt server;
                              srv_rej_attached := srv_rej_attached server;
                              srv_closed := true |}]> (servers w)) w
           | None => w
           end in
  perform (ServerClose srv) w.

(** Modelled from the spec: [Cancelable.cancel(reason?)] of
    [../utils/cancelable], which is not part of the sources.  Calling
    [cancel] after settlement is a no-op; calling it before settlement
    invokes the registered cancel hook and causes the result to reject with
    the cancellation reason, or a default reason. *)
Definition cancel (p : nat) (reason : option JsValue) (w : World) : World :=
  match cancelables w !! p with
  | Some c =>
      match promise c with
      | Pending =>
          let w := match onCancel c with
                   | Some (CloseServer srv) => server_close srv w
                   | None => w
                   end in
          reject p (default default_cancel_reason reason) w
      | _ => w
      end
  | None => w
  end.

(** What [await p] yields once [p] has settled; [None] while it is pending. *)
Definition settled (w : World) (p : ConnPromise) : option (Settled MessageConnection) :=
  match p with
  | PromiseResolve c => Some (Fulfilled c)
  | CancelablePromise i =>
      match cancelables w !! i with
      | Some {| promise := Resolved c |} => Some (Fulfilled c)
      | Some {| promise := RejectedWith e |} => Some (Rejected e)
      | _ => None
      end
  end.

(** The listeners registered for an event, in registration order. *)
Definition listeners (ev : EventName) (w : World) : list Listener :=
  map snd (List.filter (fun r => EventName_eqb (fst r) ev) (eventEmitter (this w))).

(** [this.eventEmitter.emit(ev)] calls every listener of [ev]. *)
Definition emit (ev : EventName) (w : World) : World :=
  called (listeners ev w) (perform_all (map (Invoke ev) (listeners ev w)) w).

(** [this.eventEmitter.on(ev, listener)] *)
Definition on (ev : EventName) (l : Listener) (w : World) : World :=
  assign (set_eventEmitter (eventEmitter (this w) ++ [(ev, l)])) w.

Definition onDisconnected (l : Listener) : World -> World := on ev_close l.
Definition onExit (l : Listener) : World -> World := on ev_exit l.
Definition onConnected (l : Listener) : World -> World := on ev_connect l.

(** [createMessageConnection(reader, writer, logger)] over socket [s] *)
Definition createMessageConnection (s : nat) (w : World) : World * MessageConnection :=
  (with_connections (S (connections w)) w,
   {| conn_id := connections w; conn_socket := s |}).

(** ** Synchronous methods and handlers *)

(** The severity switch of the log-message handler: the [Logger] method
    it calls, if any. *)
Definition logLevel (verbose : bool) (type : Z) : option LogLevel :=
  if (type =? MessageType.Log)%Z then Some debug
  else if (type =? MessageType.Info)%Z then
    if verbose then Some info else Some debug
  else if (type =? MessageType.Warning)%Z then
    if verbose then Some warn else Some log
  else if (type =? MessageType.Error)%Z then
    if verbose then Some error_level else Some warn
  else None.

(** The handler [registerOnNotificationHandler] installs, run on an
    inbound log-message notification [{type, message}]. *)
Definition onLogMessage (type : Z) (message : string) (w : World) : World :=
  match logLevel (lspOptions_verbose (this w)) type with
  | Some level => perform (LogCall level message) w
  | None => w
  end.

Definition registerOnNotificationHandler (c : MessageConnection) (w : World) : World :=
  perform (OnNotification c) w.

Definition onSocketClosed (w : World) : World :=
  let w := assign (set_clientConnection None) w in
  let w := assign (set_connectingPromise None) w in
  emit ev_close w.

Definition connect (w : World) : World * ConnPromise :=
  match clientConnection (this w) with
  | Some c => (w, PromiseResolve c)
  | None =>
      match connectingPromise (this w) with
      | Some p => (w, CancelablePromise p)
      | None =>
          let '(w, p) := new_Cancelable None w in
          let s := length (sockets w) in
          let w := with_sockets (sockets w ++ [Dialed p]) w in
          let w := assign (set_socket (Some s)) w in
          let w := perform (SocketConnect s (targetPort (this w)) (targetHost (this w))) w in
          let w := assign (set_connectingPromise (Some p)) w in
          (w, CancelablePromise p)
      end
  end.

Definition awaitServerConnection (w : World) : World * ConnPromise :=
  match connectingPromise (this w) with
  | Some p => (w, CancelablePromise p)
  | None =>
      let srv := length (servers w) in
      let '(w, p) := new_Cancelable (Some (CloseServer srv)) w in
      let w := with_servers (servers w ++ [{| srv_attempt := p; srv_rej_attached := true;
                                              srv_closed := false |}]) w in
      let w := perform (ServerListen srv (targetPort (this w))) w in
      let w := assign (set_connectingPromise (Some p)) w in
      (w, CancelablePromise p)
  end.

(** The [connect] handler of dialed socket [s]. *)
Definition socket_on_connect (s : nat) (w : World) : World :=
  match sockets w !! s, socket (this w) with
  | Some (Dialed p), Some cur =>
      let '(w, c) := createMessageConnection cur w in
      let w := assign (set_clientConnection (Some c)) w in
      let w := registerOnNotificationHandler c w in
      let w := perform (Listen c) w in
      let w := resolve p c w in
      emit ev_connect w
  | _, _ => w
  end.

(** The [close] handler of socket [s], dialed or accepted. *)
Definition socket_on_close (s : nat) (w : World) : World :=
  match sockets w !! s with
  | Some _ => onSocketClosed w
  | None => w
  end.

(** The connection callback of server [srv], which accepts connections
    until it is closed. *)
Definition server_on_connection (srv : nat) (w : World) : World :=
  match servers w !! srv with
  | Some {| srv_attempt := attempt; srv_closed := false |} =>
      let w := assign (set_initialized false) w in
      let w := server_close srv w in
      let w := emit ev_connect w in
      let s := length (sockets w) in
      let w := with_sockets (sockets w ++ [Accepted srv]) w in
      let w := perform (LogCall info ("langserver connection established on port "
                                        ++ string_of_Z (targetPort (this w)))) w in
      let '(w, c) := createMessageConnection s w in
      let w := assign (set_clientConnection (Some c)) w in
      let w := registerOnNotificationHandler c w in
      let w := perform (Listen c) w in
      resolve attempt c w
  | _ => w
  end.

(** An [error] event of server [srv].  While [rej] is its listener the
    attempt is rejected; once [rej] is removed the event has no listener
    and the emitter throws the error. *)
Definition server_on_error (srv : nat) (e : JsValue) (w : World) : World :=
  match servers w !! srv with
  | Some server =>
      if srv_rej_attached server then reject (srv_attempt server) e w
      else perform (Uncaught e) w
  | None => w
  end.

(** The callback of [server.listen]. *)
Definition server_on_listening (srv : nat) (w : World) : World :=
  match servers w !! srv with
  | Some server =>
      let w := with_servers
                 (<[srv := {| srv_attempt := srv_attempt server;
                              srv_rej_attached := false;
                              srv_closed := srv_closed server |}]> (servers w)) w in
      perform (LogCall info ("Wait langserver connection on port "
                               ++ string_of_Z (targetPort (this w)))) w
  | None => w
  end.

Definition changePort (port : Z) (w : World) : World :=
  if negb (port =? targetPort (this w))%Z then
    let w := assign (set_targetPort port) w in
    match connectingPromise (this w) with
    | Some p =>
        let w := cancel p None w in
        assign (set_connectingPromise None) w
    | None => w
    end
  else w.

Definition setError (e : JsValue) (w : World) : World :=
  let w := match connectingPromise (this w) with
           | Some p =>
               let w := cancel p (Some e) w in
               assign (set_connectingPromise None) w
           | None => w
           end in
  assign (set_error e) w.

(** ** Asynchronous methods *)

(** The locals of a suspended [async] call, by [await] point. *)
Inductive Frame : Type :=
| handleRequest_at_connect
    (response : ResponseMessage.t) (request : LspRequest) (p : ConnPromise)
| handleRequest_at_sendRequest (response : ResponseMessage.t)
| initialize_at_connect
    (clientCapabilities : JsValue) (workspaceFolders : WorkspaceFolder)
    (initOptions : option (list (string * JsValue))) (p : ConnPromise)
| initialize_at_sendRequest (clientConn : MessageConnection) (rootUri : string)
| shutdown_at_connect (p : ConnPromise)
| shutdown_at_sendRequest.

(** Where an [async] call stands: its promise is fulfilled, it is rejected,
    or the call is suspended at an [await]. *)
Inductive Task (A : Type) : Type :=
| Return (a : A)
| Throw (e : JsValue)
| Await (f : Frame).
Arguments Return {A} a.
Arguments Throw {A} e.
Arguments Await {A} f.

(** How a call of [sendRequest] or [sendNotification] ends at once: it
    returns ([sendRequest] the promise of the reply), or it throws, which a
    connection that is closed or disposed does.  Either way the call has
    been made. *)
Inductive Call : Type :=
| Returns
| Throws (e : JsValue).

Section Imports.

(** [RequestCancelled] of [../../common/lsp_error_codes] and
    [fileURLToPath] of the [url] module are imported, not defined here;
    [fileURLToPath] throws on a URL it cannot convert. *)
Variable RequestCancelled : Z.
Variable fileURLToPath : string -> Settled string.

(** [{ code: RequestCancelled, message: 'Server closed' }] *)
Definition server_closed : JsValue :=
  JsObject [("code", JsNumber RequestCancelled); ("message", JsString "Server closed")].

Definition handleRequest (request : LspRequest) (w : World)
  : World * Task ResponseMessage.t :=
  let response :=
    {| ResponseMessage.jsonrpc := "";
       ResponseMessage.id := JsNull;
       ResponseMessage.result := None;
       ResponseMessage.error := Some server_closed |} in
  if closed (this w) then
    let response := ResponseMessage.set_error server_closed response in
    (w, Return response)
  else
    let '(w, p) := connect w in
    (w, Await (handleRequest_at_connect response request p)).

(** [handleRequest] from [const conn = await this.connect()] on; [sent]
    is how the call of [sendRequest] or [sendNotification] ends. *)
Definition handleRequest_after_connect
    (response : ResponseMessage.t) (request : LspRequest)
    (conn : Settled MessageConnection) (sent : Call) (w : World)
  : World * Task ResponseMessage.t :=
  match conn with
  | Rejected e => (w, Throw e)    (* the await is outside the try block *)
  | Fulfilled conn =>
      let params := as_array (params request) in
      if negb (isNotification request) then
        let w := perform (SendRequest conn (method request) params) w in
        match sent with
        | Returns => (w, Await (handleRequest_at_sendRequest response))
        | Throws error =>           (* caught by the try block *)
            (w, Return (ResponseMessage.set_error error response))
        end
      else
        let w := perform (SendNotification conn (method request) params) w in
        match sent with
        | Returns => (w, Return response)
        | Throws e => (w, Throw e)  (* the call is outside the try block *)
        end
  end.

(** [handleRequest] from [await conn.sendRequest(...)] on, inside the
    try block. *)
Definition handleRequest_after_sendRequest
    (response : ResponseMessage.t) (reply : Settled JsValue) (w : World)
  : World * Task ResponseMessage.t :=
  match reply with
  | Fulfilled r => (w, Return (ResponseMessage.set_result r response))
  | Rejected e => (w, Return (ResponseMessage.set_error e response))
  end.

(** The tuple type [[WorkspaceFolder]] has exactly one component, and
    [initOptions], when given, is an object. *)
Definition initialize
    (clientCapabilities : JsValue) (workspaceFolders : WorkspaceFolder)
    (initOptions : option (list (string * JsValue))) (w : World)
  : World * Task JsValue :=
  if truthy (error (this w)) then (w, Throw (error (this w)))
  else
    let '(w, p) := connect w in
    (w, Await (initialize_at_connect clientCapabilities workspaceFolders initOptions p)).

(** The [params] object of [initialize]. *)
Definition initialize_params
    (clientCapabilities : JsValue) (workspaceFolders : WorkspaceFolder)
    (rootUri rootPath : string) : list (string * JsValue) :=
  [("processId", JsNull);
   ("workspaceFolders", JsArray [WorkspaceFolder_value workspaceFolders]);
   ("rootUri", JsString rootUri);
   ("capabilities", clientCapabilities);
   ("rootPath", JsString rootPath)].

Definition initialize_after_connect
    (clientCapabilities : JsValue) (workspaceFolders : WorkspaceFolder)
    (initOptions : option (list (string * JsValue)))
    (clientConn : Settled MessageConnection) (sent : Call) (w : World)
  : World * Task JsValue :=
  match clientConn with
  | Rejected e => (w, Throw e)
  | Fulfilled clientConn =>
      let rootUri := uri workspaceFolders in
      match fileURLToPath rootUri with
      | Rejected e => (w, Throw e)
      | Fulfilled rootPath =>
          let params :=
            initialize_params clientCapabilities workspaceFolders rootUri rootPath in
          let arg :=
            match initOptions with
            | Some o => JsObject (params ++ [("initializationOptions", JsObject o)])
            | None => JsObject params
            end in
          let w := perform (SendRequest clientConn "initialize" [arg]) w in
          match sent with
          | Returns => (w, Await (initialize_at_sendRequest clientConn rootUri))
          | Throws e => (w, Throw e)
          end
      end
  end.

(** The [then] callback of [initialize]. *)
Definition initialize_after_sendRequest
    (clientConn : MessageConnection) (rootUri : string)
    (reply : Settled JsValue) (w : World)
  : World * Task JsValue :=
  match reply with
  | Rejected e => (w, Throw e)
  | Fulfilled r =>
      let w := perform (LogCall info ("initialized at " ++ rootUri)) w in
      let w := perform (SendNotification clientConn InitializedNotification_type
                          [JsObject []]) w in
      let w := assign (set_initialized true) w in
      (w, Return r)
  end.

Definition shutdown (w : World) : World * Task JsValue :=
  let '(w, p) := connect w in
  (w, Await (shutdown_at_connect p)).

Definition shutdown_after_connect
    (clientConn : Settled MessageConnection) (sent : Call) (w : World)
  : World * Task JsValue :=
  match clientConn with
  | Rejected e => (w, Throw e)
  | Fulfilled clientConn =>
      let w := perform (LogCall info "sending shutdown request") w in
      let w := perform (SendRequest clientConn "shutdown" []) w in
      match sent with
      | Returns => (w, Await shutdown_at_sendRequest)
      | Throws e => (w, Throw e)
      end
  end.

Definition shutdown_after_sendRequest
    (reply : Settled JsValue) (w : World) : World * Task JsValue :=
  match reply with
  | Rejected e => (w, Throw e)
  | Fulfilled r => (w, Return r)
  end.

Definition exit (w : World) : World * Task unit :=
  let w := assign (set_closed true) w in
  let w :=
    match clientConnection (this w) with
    | Some clientConn =>
        let w := perform (LogCall info "sending `shutdown` request to language server.") w in
        let w := perform (SendRequest clientConn "shutdown" []) w in
        let w := perform (LogCall info "sending `exit` notification to language server.") w in
        perform (SendNotification clientConn ExitNotification_type []) w
    | None => w
    end in
  let w := emit ev_exit w in
  (w, Return tt).

Definition unloadWorkspace (workspaceDir : string) (w : World) : World * Task unit :=
  (w, Throw (JsString "should not hit here")).

(** ** The proxy as a transition system *)

(** What a call hands back to its caller. *)
Inductive Ret : Type :=
| RetResponse (r : ResponseMessage.t)
| RetValue (v : JsValue)
| RetVoid.

Definition Task_map {A B : Type} (g : A -> B) (t : Task A) : Task B :=
  match t with
  | Return a => Return (g a)
  | Throw e => Throw e
  | Await f => Await f
  end.

(** What the channel does when a resumed call uses it: [Fulfilled] when the
    call made on it returns, [Rejected e] when it throws [e]. *)
Definition call_of (reply : Settled JsValue) : Call :=
  match reply with
  | Fulfilled _ => Returns
  | Rejected e => Throws e
  end.

(** Resuming a suspended call; [reply] is what the channel does.  A call
    suspended on a connection promise resumes with what that promise
    settled to and stays suspended while it is pending; the call it then
    makes on the channel returns or throws, as [reply] says.  A call
    suspended on [sendRequest] resumes with the reply the backend gives. *)
Definition resume_frame (f : Frame) (reply : Settled JsValue) (w : World)
  : World * Task Ret :=
  match f with
  | handleRequest_at_connect response request p =>
      match settled w p with
      | Some conn =>
          let '(w, t) :=
            handleRequest_after_connect response request conn (call_of reply) w in
          (w, Task_map RetResponse t)
      | None => (w, Await f)
      end
  | handleRequest_at_sendRequest response =>
      let '(w, t) := handleRequest_after_sendRequest response reply w in
      (w, Task_map RetResponse t)
  | initialize_at_connect clientCapabilities workspaceFolders initOptions p =>
      match settled w p with
      | Some conn =>
          let '(w, t) :=
            initialize_after_connect clientCapabilities workspaceFolders initOptions conn
              (call_of reply) w in
          (w, Task_map RetValue t)
      | None => (w, Await f)
      end
  | initialize_at_sendRequest clientConn rootUri =>
      let '(w, t) := initialize_after_sendRequest clientConn rootUri reply w in
      (w, Task_map RetValue t)
  | shutdown_at_connect p =>
      match settled w p with
      | Some conn =>
          let '(w, t) := shutdown_after_connect conn (call_of reply) w in
          (w, Task_map RetValue t)
      | None => (w, Await f)
      end
  | shutdown_at_sendRequest =>
      let '(w, t) := shutdown_after_sendRequest reply w in
      (w, Task_map RetValue t)
  end.

(** Everything that can happen to a proxy: a call of a public method, the
    resumption of a suspended call, an event of a socket, a server, a
    connection or the configuration. *)
Inductive Action : Type :=
| call_handleRequest (request : LspRequest)
| call_initialize (clientCapabilities : JsValue) (workspaceFolders : WorkspaceFolder)
    (initOptions : option (list (string * JsValue)))
| call_shutdown
| call_exit
| call_awaitServerConnection
| call_onDisconnected (l : Listener)
| call_onExit (l : Listener)
| call_onConnected (l : Listener)
| call_connect
| call_unloadWorkspace (workspaceDir : string)
| call_changePort (port : Z)
| call_setError (e : JsValue)
| resume (f : Frame) (reply : Settled JsValue)
| event_socket_connect (s : nat)
| event_socket_close (s : nat)
| event_server_connection (srv : nat)
| event_server_error (srv : nat) (e : JsValue)
| event_server_listening (srv : nat)
| event_logMessage (c : MessageConnection) (type : Z) (message : string)
| event_verbose (b : bool).

Definition step (a : Action) (w : World) : World :=
  match a with
  | call_handleRequest request => fst (handleRequest request w)
  | call_initialize clientCapabilities workspaceFolders initOptions =>
      fst (initialize clientCapabilities workspaceFolders initOptions w)
  | call_shutdown => fst (shutdown w)
  | call_exit => fst (exit w)
  | call_awaitServerConnection => fst (awaitServerConnection w)
  | call_onDisconnected l => onDisconnected l w
  | call_onExit l => onExit l w
  | call_onConnected l => onConnected l w
  | call_connect => fst (connect w)
  | call_unloadWorkspace workspaceDir => fst (unloadWorkspace workspaceDir w)
  | call_changePort port => changePort port w
  | call_setError e => setError e w
  | resume f reply => fst (resume_frame f reply w)
  | event_socket_connect s => socket_on_connect s w
  | event_socket_close s => socket_on_close s w
  | event_server_connection srv => server_on_connection srv w
  | event_server_error srv e => server_on_error srv e w
  | event_server_listening srv => server_on_listening srv w
  | event_logMessage c type message =>
      if (conn_id c <? connections w)%nat then onLogMessage type message w else w
  | event_verbose b => assign (set_verbose b) w
  end.

(** A history of the proxy, oldest action first. *)
Definition run (acts : list Action) (w : World) : World :=
  fold_left (fun w a => step a w) acts w.

End Imports.

(** ** Vocabulary of the properties *)

(** The one action that assigns the sticky error. *)
Definition is_setError (a : Action) : bool :=
  match a with call_setError _ => true | _ => false end.

(** The messages [exit] sends over the channel, when there is one. *)
Definition goodbye (c : option MessageConnection) : list Effect :=
  match c with
  | Some clientConn =>
      [LogCall info "sending `shutdown` request to language server.";
       SendRequest clientConn "shutdown" [];
       LogCall info "sending `exit` notification to language server.";
       SendNotification clientConn ExitNotification_type []]
  | None => []
  end.

(** The effects that close a server or open a connection attempt; the
    proxy has no operation that closes or destroys a socket. *)
Definition touches_socket (e : Effect) : bool :=
  match e with
  | SocketConnect _ _ _ | ServerListen _ _ | ServerClose _ => true
  | _ => false
  end.

(** [n] calls in a row, with nothing happening in between; the result is
    the world they leave and the promise each caller received. *)
Fixpoint calls (f : World -> World * ConnPromise) (n : nat) (w : World)
  : World * list ConnPromise :=
  match n with
  | O => (w, [])
  | S n =>
      let '(w, p) := f w in
      let '(w, ps) := calls f n w in
      (w, p :: ps)
  end.

(** The connection attempts opened so far. *)
Definition attempts (w : World) : nat := length (List.filter is_attempt (trace w)).

(** The message [handleRequest] forwards over a channel. *)
Definition forwarded (conn : MessageConnection) (request : LspRequest) : Effect :=
  if isNotification request
  then SendNotification conn (method request) (as_array (params request))
  else SendRequest conn (method request) (as_array (params request)).

(** While no channel exists, the attempt in the slot has not been
    fulfilled. *)
Definition no_stale_fulfilment (w : World) : Prop :=
  clientConnection (this w) = None ->
  forall p c, connectingPromise (this w) = Some p ->
              settled w (CancelablePromise p) <> Some (Fulfilled c).


(** ** Scenarios *)

(** A value for the imported error code and a stand-in for
    [fileURLToPath] on [file://] URLs without a host, used to run the
    methods on concrete inputs. *)
Definition RequestCancelled_code : Z := (-32800)%Z.

Definition file_path (url : string) : Settled string :=
  if String.prefix "file://" url
  then Fulfilled (String.substring 7 (String.length url - 7) url)
  else Rejected (JsString "ERR_INVALID_URL_SCHEME").

(** A proxy just constructed, and one whose dialed socket has connected. *)
Definition fresh : World := new_World 9000 "localhost" false.
Definition dialing : World := fst (connect fresh).
Definition connected : World := socket_on_connect 0 dialing.

Definition foo_request : LspRequest :=
  {| method := "foo"; params := JsArray [JsNumber 1; JsNumber 2];
     isNotification := false |}.

Definition proj_folder : WorkspaceFolder := {| uri := "file:///proj"; name := "proj" |}.

(** The response object [handleRequest] starts from. *)
Definition initial_response (RequestCancelled : Z) : ResponseMessage.t :=
  {| ResponseMessage.jsonrpc := "";
     ResponseMessage.id := JsNull;
     ResponseMessage.result := None;
     ResponseMessage.error := Some (server_closed RequestCancelled) |}.

(** Resumes a call if it is suspended. *)
Definition resume_task (fileURLToPath : string -> Settled string)
    (t : Task Ret) (reply : Settled JsValue) (w : World) : World * Task Ret :=
  match t with
  | Await f => resume_frame fileURLToPath f reply w
  | _ => (w, t)
  end.

(** * Properties *)

(** ** The world outside the proxy object

    The helpers that settle promises, close servers and call listeners
    never assign a field of the proxy. *)

Lemma this_settle p s w : this (settle p s w) = this w.
Proof. unfold settle. repeat case_match; reflexivity. Qed.

Lemma this_server_close srv w : this (server_close srv w) = this w.
Proof. unfold server_close. case_match; reflexivity. Qed.

Lemma this_cancel p reason w : this (cancel p reason w) = this w.
Proof.
  unfold cancel, reject. repeat case_match; try reflexivity;
    rewrite this_settle; try apply this_server_close; reflexivity.
Qed.

Lemma cancelables_server_close srv w :
  cancelables (server_close srv w) = cancelables w.
Proof. unfold server_close. case_match; reflexivity. Qed.

Lemma trace_settle p s w : trace (settle p s w) = trace w.
Proof. unfold settle. repeat case_match; reflexivity. Qed.

Lemma trace_server_close srv w :
  trace (server_close srv w) = trace w ++ [ServerClose srv].
Proof. unfold server_close. case_match; reflexivity. Qed.

Lemma sockets_settle p s w : sockets (settle p s w) = sockets w.
Proof. unfold settle. repeat case_match; reflexivity. Qed.

Create Rewrite HintDb world.
#[local] Hint Rewrite this_settle this_server_close this_cancel
  cancelables_server_close trace_settle trace_server_close sockets_settle : world.

(** Unfolds the methods and handlers down to field assignments. *)
Ltac unfold_methods :=
  unfold handleRequest, handleRequest_after_connect, handleRequest_after_sendRequest,
    initialize, initialize_after_connect, initialize_after_sendRequest,
    shutdown, shutdown_after_connect, shutdown_after_sendRequest,
    exit, unloadWorkspace, connect, awaitServerConnection,
    onDisconnected, onExit, onConnected, on,
    changePort, setError, socket_on_connect, socket_on_close, onSocketClosed,
    server_on_connection, server_on_error, server_on_listening,
    onLogMessage, registerOnNotificationHandler, createMessageConnection,
    new_Cancelable, resolve, reject, emit in *.

Ltac this_field :=
  repeat (case_match; simpl in *; simplify_eq);
  autorewrite with world; simpl in *;
  repeat (case_match; simpl in *; simplify_eq);
  try congruence; auto.

(** ** Which actions assign which field *)

Lemma resume_frame_this_fields fu f reply w :
  let t := this (fst (resume_frame fu f reply w)) in
  closed t = closed (this w) /\ error t = error (this w) /\
  clientConnection t = clientConnection (this w) /\
  connectingPromise t = connectingPromise (this w).
Proof.
  destruct f; simpl; unfold_methods; repeat (case_match; simpl in * );
    simplify_eq; simpl; auto.
Qed.

(** Only [exit] assigns [closed], and it assigns [true]. *)
Lemma step_closed rc fu a w :
  closed (this w) = true -> closed (this (step rc fu a w)) = true.
Proof.
  intros H. destruct a; simpl;
    try (rewrite (proj1 (resume_frame_this_fields fu f reply w)); exact H);
    unfold_methods; this_field.
Qed.

Lemma run_closed rc fu acts w :
  closed (this w) = true -> closed (this (run rc fu acts w)) = true.
Proof.
  revert w. induction acts as [|a acts IH]; intros w H; simpl; [exact H|].
  apply IH, step_closed, H.
Qed.

(** Only [setError] assigns [error]. *)
Lemma step_error rc fu a w :
  is_setError a = false -> error (this (step rc fu a w)) = error (this w).
Proof.
  intros H. destruct a; simpl in *; try discriminate;
    try (apply (resume_frame_this_fields fu f reply w));
    unfold_methods; this_field.
Qed.

Lemma run_error rc fu acts w :
  forallb (fun a => negb (is_setError a)) acts = true ->
  error (this (run rc fu acts w)) = error (this w).
Proof.
  revert w. induction acts as [|a acts IH]; intros w H; simpl in *; [reflexivity|].
  apply andb_true_iff in H as [Ha H]. rewrite IH by exact H.
  apply step_error. destruct (is_setError a); [discriminate|reflexivity].
Qed.

(** A live channel is dropped by the socket [close] handler only. *)
Lemma step_keeps_channel rc fu a w :
  clientConnection (this w) <> None ->
  clientConnection (this (step rc fu a w)) = None ->
  exists s, a = event_socket_close s.
Proof.
  intros Hc Hn. destruct a; simpl in *; try (eexists; reflexivity); exfalso;
    try (rewrite (proj1 (proj2 (proj2 (resume_frame_this_fields fu f reply w)))) in Hn;
         contradiction);
    revert Hn; unfold_methods; this_field.
Qed.

(** ** Inbound log messages *)

(** C8.  The handler of inbound log-message notifications maps severities
    to logger methods as follows.  Severity [Log] goes to [debug] whatever
    the verbose flag.  With the flag off, [Info] goes to [debug],
    [Warning] to [log] and [Error] to [warn]; with the flag on, [Info]
    goes to [info], [Warning] to [warn] and [Error] to [error].  The flag
    is the one the configuration holds when the notification arrives: after
    the flag is set to [b], the handler follows [b]. *)
Theorem log_message_severity_mapping (w : World) (message : string) (b : bool) :
  onLogMessage MessageType.Log message w = perform (LogCall debug message) w /\
  onLogMessage MessageType.Info message w =
    perform (LogCall (if lspOptions_verbose (this w) then info else debug) message) w /\
  onLogMessage MessageType.Warning message w =
    perform (LogCall (if lspOptions_verbose (this w) then warn else log) message) w /\
  onLogMessage MessageType.Error message w =
    perform (LogCall (if lspOptions_verbose (this w) then error_level else warn) message) w /\
  (logLevel false MessageType.Info = Some debug /\
   logLevel false MessageType.Warning = Some log /\
   logLevel false MessageType.Error = Some warn) /\
  (logLevel true MessageType.Info = Some info /\
   logLevel true MessageType.Warning = Some warn /\
   logLevel true MessageType.Error = Some error_level) /\
  (let w' := assign (set_verbose b) w in
   trace (onLogMessage MessageType.Log message w') = trace w ++ [LogCall debug message] /\
   trace (onLogMessage MessageType.Info message w') =
     trace w ++ [LogCall (if b then info else debug) message] /\
   trace (onLogMessage MessageType.Warning message w') =
     trace w ++ [LogCall (if b then warn else log) message] /\
   trace (onLogMessage MessageType.Error message w') =
     trace w ++ [LogCall (if b then error_level else warn) message]).
Proof.
  unfold onLogMessage. cbn [logLevel Z.eqb MessageType.Log MessageType.Info
    MessageType.Warning MessageType.Error].
  repeat split; try reflexivity;
    try (destruct (lspOptions_verbose (this w)); reflexivity);
    destruct b; reflexivity.
Qed.

(** ** exit *)

Lemma exit_world w :
  let w' := fst (exit w) in
  this w' = set_closed true (this w) /\
  trace w' = trace w ++ goodbye (clientConnection (this w))
               ++ map (Invoke ev_exit) (listeners ev_exit w) /\
  cancelables w' = cancelables w /\ sockets w' = sockets w /\
  servers w' = servers w /\ connections w' = connections w /\
  snd (exit w) = Return tt.
Proof.
  unfold exit, emit, listeners, goodbye. simpl.
  destruct (clientConnection (this w)); simpl;
    repeat split; try reflexivity.
  rewrite <- !app_assoc. reflexivity.
Qed.

Lemma exit_seen w :
  isClosed_seen (fst (exit w)) =
    isClosed_seen w ++ map (fun l => (l, true)) (listeners ev_exit w).
Proof.
  unfold exit, emit, listeners, isClosed. simpl.
  destruct (clientConnection (this w)); reflexivity.
Qed.

(** C9, as it holds.  Every [exit()] call sets [closed]; only if a channel
    exists, it sends a [shutdown] request followed by an [exit] notification
    over that channel without awaiting either; it calls every listener
    registered for the [exit] event, in registration order, and its promise
    is fulfilled.  The listeners find [isClosed] true: [closed] is set
    before they are called.  With no channel the call still sets [closed]
    and calls the listeners.  The call is terminal, [closed] stays set
    through every later call, resumption and event, and idempotent on the
    fields of the proxy only: a second call leaves every field as the first
    left it and repeats the sends and the event. *)
Theorem exit_closes_says_goodbye_and_emits
    (RequestCancelled : Z) (fileURLToPath : string -> Settled string)
    (w : World) (acts : list Action) :
  let exit_listeners :=
    map snd (List.filter (fun r => EventName_eqb (fst r) ev_exit)
               (eventEmitter (this w))) in
  let sends :=
    match clientConnection (this w) with
    | Some clientConn =>
        [LogCall info "sending `shutdown` request to language server.";
         SendRequest clientConn "shutdown" [];
         LogCall info "sending `exit` notification to language server.";
         SendNotification clientConn "exit" []]
    | None => []
    end in
  let w' := fst (exit w) in
  snd (exit w) = Return tt /\
  this w' = set_closed true (this w) /\
  trace w' = trace w ++ sends ++ map (Invoke ev_exit) exit_listeners /\
  isClosed_seen w' = isClosed_seen w ++ map (fun l => (l, true)) exit_listeners /\
  (forall l, In (ev_exit, l) (eventEmitter (this w)) ->
             In (Invoke ev_exit l) (trace w') /\ In (l, true) (isClosed_seen w')) /\
  this (fst (exit w')) = this w' /\
  trace (fst (exit w')) = trace w' ++ sends ++ map (Invoke ev_exit) exit_listeners /\
  closed (this (run RequestCancelled fileURLToPath acts w')) = true.
Proof.
  destruct (exit_world w) as (Hthis & Htrace & _ & _ & _ & _ & Hret).
  destruct (exit_world (fst (exit w))) as (Hthis2 & Htrace2 & _).
  pose proof (exit_seen w) as Hseen.
  cbv zeta in *. unfold goodbye, listeners, ExitNotification_type in *.
  assert (Hmem : forall l, In (ev_exit, l) (eventEmitter (this w)) ->
            In l (map snd (List.filter (fun r => EventName_eqb (fst r) ev_exit)
                             (eventEmitter (this w))))).
  { intros l Hl. apply in_map_iff. exists (ev_exit, l). split; [reflexivity|].
    apply filter_In. split; [exact Hl | reflexivity]. }
  split_and!.
  - exact Hret.
  - exact Hthis.
  - exact Htrace.
  - exact Hseen.
  - intros l Hl. split.
    + rewrite Htrace. apply in_or_app. right. apply in_or_app. right.
      apply in_map, Hmem, Hl.
    + rewrite Hseen. apply in_or_app. right.
      apply (in_map (fun l0 => (l0, true))), Hmem, Hl.
  - rewrite Hthis2, Hthis. reflexivity.
  - rewrite Htrace2, Hthis. reflexivity.
  - apply run_closed. rewrite Hthis. reflexivity.
Qed.

(** A listener registered with [onExit] on a connected proxy. *)
Lemma exit_closes_says_goodbye_and_emits_witness :
  let w := onExit 7 connected in
  let c := {| conn_id := 0; conn_socket := 0 |} in
  In (ev_exit, 7) (eventEmitter (this w)) /\
  In (Invoke ev_exit 7) (trace (fst (exit w))) /\
  In (7, true) (isClosed_seen (fst (exit w))) /\
  isClosed w = false.
Proof.
  assert (Hin : In (ev_exit, 7) (eventEmitter (this (onExit 7 connected))))
    by (left; reflexivity).
  destruct (exit_closes_says_goodbye_and_emits RequestCancelled_code file_path
              (onExit 7 connected) []) as (_ & _ & _ & _ & Hl & _).
  destruct (Hl 7 Hin) as [Htr Hseen].
  cbv zeta. split; [exact Hin|]. split; [exact Htr|]. split; [exact Hseen|]. reflexivity.
Defined.

(** C9, as stated, fails: [exit()] is not idempotent.  On a connected proxy
    with one [exit] listener, a second [exit()] leaves the fields as they
    are but sends [shutdown] and [exit] again and calls the listener
    again. *)
Lemma second_exit_repeats_the_sends_and_the_event :
  let w := onExit 7 connected in
  let c := {| conn_id := 0; conn_socket := 0 |} in
  let once := fst (exit w) in
  let twice := fst (exit once) in
  let said :=
    [LogCall info "sending `shutdown` request to language server.";
     SendRequest c "shutdown" [];
     LogCall info "sending `exit` notification to language server.";
     SendNotification c "exit" [];
     Invoke ev_exit 7] in
  this twice = this once /\
  trace once = trace w ++ said /\
  trace twice = trace w ++ said ++ said /\
  twice <> once.
Proof.
  cbv zeta. split_and!.
  - vm_compute. reflexivity.
  - vm_compute. reflexivity.
  - vm_compute. reflexivity.
  - intros H. apply (f_equal (fun x => length (trace x))) in H.
    vm_compute in H. discriminate.
Qed.

(** C10.  [exit()] assigns [closed] and no other field: the channel
    reference, the pending-attempt slot, the target host and port and the
    sticky error are as before, as are the promise, socket and server
    objects; what it does to the outside is to log, send and call
    listeners, never to close a socket.  The channel reference is cleared
    by the socket [close] handler only: an action that takes a proxy with a
    channel to a proxy without one is a socket [close] event. *)
Theorem exit_assigns_only_closed
    (RequestCancelled : Z) (fileURLToPath : string -> Settled string)
    (w : World) (a : Action) :
  let w' := fst (exit w) in
  (this w' = set_closed true (this w) /\
   clientConnection (this w') = clientConnection (this w) /\
   connectingPromise (this w') = connectingPromise (this w) /\
   targetHost (this w') = targetHost (this w) /\
   targetPort (this w') = targetPort (this w) /\
   error (this w') = error (this w) /\
   cancelables w' = cancelables w /\ sockets w' = sockets w /\
   servers w' = servers w) /\
  (exists added, trace w' = trace w ++ added /\
                 forallb (fun e => negb (touches_socket e)) added = true) /\
  (clientConnection (this w) <> None ->
   clientConnection (this (step RequestCancelled fileURLToPath a w)) = None ->
   exists s, a = event_socket_close s).
Proof.
  destruct (exit_world w) as (Hthis & Htrace & Hc & Hs & Hsrv & _ & _).
  cbv zeta in *. split_and!; try assumption; try (rewrite Hthis; reflexivity).
  - eexists. split; [exact Htrace|].
    rewrite forallb_app. apply andb_true_iff. split.
    + destruct (clientConnection (this w)); reflexivity.
    + clear Htrace. induction (listeners ev_exit w) as [|l ls IH];
        [reflexivity | exact IH].
  - apply step_keeps_channel.
Qed.

(** On a connected proxy, the socket [close] event clears the channel. *)
Lemma exit_assigns_only_closed_witness :
  clientConnection (this connected) <> None /\
  clientConnection
    (this (step RequestCancelled_code file_path (event_socket_close 0) connected)) = None /\
  clientConnection (this (fst (exit connected))) = clientConnection (this connected) /\
  exists s, event_socket_close 0 = event_socket_close s.
Proof.
  destruct (exit_assigns_only_closed RequestCancelled_code file_path connected
              (event_socket_close 0)) as ((_ & Hchannel & _) & _ & Hclose).
  split_and!.
  - discriminate.
  - reflexivity.
  - exact Hchannel.
  - apply Hclose; [discriminate | reflexivity].
Defined.

(** ** handleRequest *)




(** C2, on the code.  Scenario A: a request [foo] with parameters [[1, 2]]
    on a proxy that is not closed; the dialed socket connects and the
    backend answers [42].  The response returned has [result] set to [42]
    and [error] still set to the ["Server closed"] object the response was
    created with: both fields are set although the proxy is not closed.  A
    forwarded notification likewise returns the response with that
    [error]. *)
Theorem successful_request_keeps_server_closed_error :
  let '(w1, t1) := handleRequest RequestCancelled_code foo_request fresh in
  let w2 := socket_on_connect 0 w1 in
  let '(w3, t3) :=
    resume_task file_path (Task_map RetResponse t1) (Fulfilled JsUndefined) w2 in
  let '(w4, t4) := resume_task file_path t3 (Fulfilled (JsNumber 42)) w3 in
  closed (this w4) = false /\
  trace w4 = [SocketConnect 0 9000 "localhost";
              OnNotification {| conn_id := 0; conn_socket := 0 |};
              Listen {| conn_id := 0; conn_socket := 0 |};
              SendRequest {| conn_id := 0; conn_socket := 0 |} "foo"
                [JsNumber 1; JsNumber 2]] /\
  t4 = Return (RetResponse
         {| ResponseMessage.jsonrpc := "";
            ResponseMessage.id := JsNull;
            ResponseMessage.result := Some (JsNumber 42);
            ResponseMessage.error :=
              Some (JsObject [("code", JsNumber RequestCancelled_code);
                              ("message", JsString "Server closed")]) |}) /\
  (forall conn w,
     snd (handleRequest_after_connect (initial_response RequestCancelled_code)
            {| method := "note"; params := JsNull; isNotification := true |}
            (Fulfilled conn) Returns w)
     = Return (initial_response RequestCancelled_code)).
Proof. vm_compute. repeat split; reflexivity. Qed.

(** C3, as it holds.  Once [closed] is set it stays set through every
    call, resumption and event, and from then on [handleRequest] neither
    creates a connection attempt nor touches a socket: it resolves at once,
    the world as it was, with the synthesized error
    [{code: RequestCancelled, message: "Server closed"}]. *)
Theorem handleRequest_on_closed_proxy
    (RequestCancelled : Z) (fileURLToPath : string -> Settled string)
    (w : World) (acts : list Action) (request : LspRequest) :
  closed (this w) = true ->
  let w' := run RequestCancelled fileURLToPath acts w in
  closed (this w') = true /\
  handleRequest RequestCancelled request w' =
    (w', Return {| ResponseMessage.jsonrpc := "";
                   ResponseMessage.id := JsNull;
                   ResponseMessage.result := None;
                   ResponseMessage.error :=
                     Some (JsObject [("code", JsNumber RequestCancelled);
                                     ("message", JsString "Server closed")]) |}).
Proof.
  intros Hclosed w'.
  assert (H : closed (this w') = true) by (apply run_closed, Hclosed).
  split; [exact H|]. unfold handleRequest. rewrite H. reflexivity.
Qed.

Lemma handleRequest_on_closed_proxy_witness :
  let w := fst (exit connected) in
  let w' := run RequestCancelled_code file_path
              [event_socket_close 0; call_handleRequest foo_request] w in
  closed (this w) = true /\ closed (this w') = true /\
  snd (handleRequest RequestCancelled_code foo_request w') =
    Return (initial_response RequestCancelled_code) /\
  trace (fst (handleRequest RequestCancelled_code foo_request w')) = trace w'.
Proof.
  assert (Hclosed : closed (this (fst (exit connected))) = true) by reflexivity.
  destruct (handleRequest_on_closed_proxy RequestCancelled_code file_path
              (fst (exit connected))
              [event_socket_close 0; call_handleRequest foo_request]
              foo_request Hclosed) as [H1 H2].
  cbv zeta. split_and!.
  - exact Hclosed.
  - exact H1.
  - rewrite H2. reflexivity.
  - rewrite H2. reflexivity.
Defined.

(** C3, as stated, fails.  After [exit()] the proxy is closed, with no
    channel and no attempt; [connect()], and [initialize] and [shutdown]
    through it, and [awaitServerConnection()] do not consult [closed] and
    open a new connection attempt. *)
Lemma connect_after_exit_opens_an_attempt :
  let w := fst (exit fresh) in
  closed (this w) = true /\ connectingPromise (this w) = None /\ trace w = [] /\
  (let w' := fst (connect w) in
   closed (this w') = true /\ connectingPromise (this w') = Some 0 /\
   cancelables w' = [{| promise := Pending; onCancel := None |}] /\
   trace w' = [SocketConnect 0 9000 "localhost"]) /\
  trace (fst (initialize JsNull proj_folder None w)) = [SocketConnect 0 9000 "localhost"] /\
  trace (fst (shutdown w)) = [SocketConnect 0 9000 "localhost"] /\
  trace (fst (awaitServerConnection w)) = [ServerListen 0 9000].
Proof. vm_compute. repeat split; reflexivity. Qed.

(** ** initialize *)



(** ** connect and awaitServerConnection *)

Lemma connect_again w : connect (fst (connect w)) = (fst (connect w), snd (connect w)).
Proof.
  unfold connect.
  destruct (clientConnection (this w)) as [c|] eqn:Hc; simpl.
  - rewrite Hc. reflexivity.
  - destruct (connectingPromise (this w)) as [p|] eqn:Hp; simpl.
    + rewrite Hc, Hp. reflexivity.
    + rewrite Hc. reflexivity.
Qed.

Lemma awaitServerConnection_again w :
  awaitServerConnection (fst (awaitServerConnection w))
  = (fst (awaitServerConnection w), snd (awaitServerConnection w)).
Proof.
  unfold awaitServerConnection.
  destruct (connectingPromise (this w)) as [p|] eqn:Hp; simpl.
  - rewrite Hp. reflexivity.
  - reflexivity.
Qed.

Lemma calls_shared (f : World -> World * ConnPromise) :
  (forall w, f (fst (f w)) = (fst (f w), snd (f w))) ->
  forall n w, calls f (S n) w = (fst (f w), repeat (snd (f w)) (S n)).
Proof.
  intros Hf. induction n as [|n IH]; intros w.
  - simpl. destruct (f w). reflexivity.
  - change (calls f (S (S n)) w)
      with (let '(w1, p) := f w in
            let '(w2, ps) := calls f (S n) w1 in (w2, p :: ps)).
    destruct (f w) as [w1 p] eqn:Hfw.
    rewrite IH.
    assert (H1 : f w1 = (w1, p)).
    { specialize (Hf w). rewrite Hfw in Hf. exact Hf. }
    rewrite H1. reflexivity.
Qed.

Lemma connect_attempts w : attempts (fst (connect w)) <= S (attempts w).
Proof.
  unfold attempts, connect.
  destruct (clientConnection (this w)); [simpl; lia|].
  destruct (connectingPromise (this w)); simpl; [lia|].
  rewrite List.filter_app, length_app. simpl. lia.
Qed.

Lemma awaitServerConnection_attempts w :
  attempts (fst (awaitServerConnection w)) <= S (attempts w).
Proof.
  unfold attempts, awaitServerConnection.
  destruct (connectingPromise (this w)); simpl; [lia|].
  rewrite List.filter_app, length_app. simpl. lia.
Qed.

(** C4, as it holds.  [connect()]: if a channel exists it is returned, the
    world untouched; otherwise, if the attempt slot is filled, the promise
    of that attempt is returned, the world untouched; only when neither
    exists is one new attempt started, by one [socket.connect] to the
    target port and host, and stored in the slot.  So [n + 1] calls in a
    row leave the world as one call leaves it, open at most one attempt,
    and hand every caller the same promise, hence the same channel.
    [awaitServerConnection()] consults the attempt slot only: a filled slot
    is shared the same way, and an empty slot starts one new listening
    attempt whether or not a channel exists.  The two methods share the
    slot: while no channel exists, a call of either after the other
    receives the other's attempt. *)
Theorem connection_attempts_are_shared (w : World) (n : nat) :
  (forall c, clientConnection (this w) = Some c -> connect w = (w, PromiseResolve c)) /\
  (forall p, clientConnection (this w) = None -> connectingPromise (this w) = Some p ->
             connect w = (w, CancelablePromise p)) /\
  (clientConnection (this w) = None -> connectingPromise (this w) = None ->
   let p := length (cancelables w) in
   snd (connect w) = CancelablePromise p /\
   connectingPromise (this (fst (connect w))) = Some p /\
   cancelables (fst (connect w)) = cancelables w ++ [{| promise := Pending; onCancel := None |}] /\
   trace (fst (connect w)) =
     trace w ++ [SocketConnect (length (sockets w)) (targetPort (this w))
                   (targetHost (this w))]) /\
  calls connect (S n) w = (fst (connect w), repeat (snd (connect w)) (S n)) /\
  attempts (fst (calls connect (S n) w)) <= S (attempts w) /\
  (forall p, connectingPromise (this w) = Some p ->
             awaitServerConnection w = (w, CancelablePromise p)) /\
  (connectingPromise (this w) = None ->
   let p := length (cancelables w) in
   let srv := length (servers w) in
   snd (awaitServerConnection w) = CancelablePromise p /\
   connectingPromise (this (fst (awaitServerConnection w))) = Some p /\
   cancelables (fst (awaitServerConnection w)) =
     cancelables w ++ [{| promise := Pending; onCancel := Some (CloseServer srv) |}] /\
   trace (fst (awaitServerConnection w)) =
     trace w ++ [ServerListen srv (targetPort (this w))]) /\
  calls awaitServerConnection (S n) w =
    (fst (awaitServerConnection w), repeat (snd (awaitServerConnection w)) (S n)) /\
  attempts (fst (calls awaitServerConnection (S n) w)) <= S (attempts w) /\
  awaitServerConnection (fst (connect w)) =
    match clientConnection (this w) with
    | Some _ => awaitServerConnection w
    | None => (fst (connect w), snd (connect w))
    end /\
  (clientConnection (this w) = None ->
   connect (fst (awaitServerConnection w)) =
     (fst (awaitServerConnection w), snd (awaitServerConnection w))).
Proof.
  split_and!.
  - intros c Hc. unfold connect. rewrite Hc. reflexivity.
  - intros p Hc Hp. unfold connect. rewrite Hc, Hp. reflexivity.
  - intros Hc Hp. unfold connect. rewrite Hc, Hp. simpl. auto.
  - apply calls_shared, connect_again.
  - rewrite (calls_shared connect connect_again). apply connect_attempts.
  - intros p Hp. unfold awaitServerConnection. rewrite Hp. reflexivity.
  - intros Hp. unfold awaitServerConnection. rewrite Hp. simpl. auto.
  - apply calls_shared, awaitServerConnection_again.
  - rewrite (calls_shared awaitServerConnection awaitServerConnection_again).
    apply awaitServerConnection_attempts.
  - unfold connect. destruct (clientConnection (this w)); [reflexivity|].
    unfold awaitServerConnection.
    destruct (connectingPromise (this w)) as [p|] eqn:Hp; simpl.
    + rewrite Hp. reflexivity.
    + reflexivity.
  - intros Hc. unfold awaitServerConnection, connect.
    destruct (connectingPromise (this w)) as [p|] eqn:Hp; simpl.
    + rewrite Hc, Hp. reflexivity.
    + rewrite Hc. reflexivity.
Qed.

(** Three callers on a fresh proxy: one dial, one promise for all. *)
Lemma connection_attempts_are_shared_witness :
  clientConnection (this fresh) = None /\ connectingPromise (this fresh) = None /\
  snd (connect fresh) = CancelablePromise 0 /\
  calls connect 3 fresh =
    (dialing, [CancelablePromise 0; CancelablePromise 0; CancelablePromise 0]) /\
  trace dialing = [SocketConnect 0 9000 "localhost"] /\
  connect connected = (connected, PromiseResolve {| conn_id := 0; conn_socket := 0 |}) /\
  connect dialing = (dialing, CancelablePromise 0).
Proof.
  destruct (connection_attempts_are_shared fresh 2) as (_ & _ & H3 & H4 & _).
  destruct (H3 eq_refl eq_refl) as (Hp & _ & _ & Ht).
  destruct (connection_attempts_are_shared connected 0) as (H1 & _).
  destruct (connection_attempts_are_shared dialing 0) as (_ & H2 & _).
  split_and!.
  - reflexivity.
  - reflexivity.
  - exact Hp.
  - exact H4.
  - exact Ht.
  - apply H1. reflexivity.
  - apply H2; reflexivity.
Defined.

(** C4, as stated, fails for [awaitServerConnection()].  The dialed socket
    of a proxy has connected, so a channel exists; [changePort] then
    empties the attempt slot.  [awaitServerConnection()] now starts a
    listening attempt and returns its pending promise instead of the
    existing channel, which [connect()] still returns. *)
Lemma awaitServerConnection_ignores_the_channel :
  let w := changePort 9001 connected in
  let c := {| conn_id := 0; conn_socket := 0 |} in
  clientConnection (this w) = Some c /\
  connectingPromise (this w) = None /\
  connect w = (w, PromiseResolve c) /\
  snd (awaitServerConnection w) = CancelablePromise 1 /\
  settled (fst (awaitServerConnection w)) (CancelablePromise 1) = None /\
  trace (fst (awaitServerConnection w)) = trace w ++ [ServerListen 0 9001] /\
  attempts (fst (awaitServerConnection w)) = 2.
Proof. vm_compute. repeat split; reflexivity. Qed.

(** ** changePort and setError *)

Lemma cancel_pending p reason hook w :
  cancelables w !! p = Some {| promise := Pending; onCancel := hook |} ->
  cancelables (cancel p reason w) !! p =
    Some {| promise := RejectedWith (default default_cancel_reason reason);
            onCancel := hook |}.
Proof.
  intros H. unfold cancel, reject, settle. rewrite H. simpl.
  destruct hook as [[srv]|]; rewrite ?cancelables_server_close, H; simpl;
    rewrite ?cancelables_server_close;
    apply list_lookup_insert_eq; eapply lookup_lt_Some; exact H.
Qed.

Lemma sockets_cancel p reason w : sockets (cancel p reason w) = sockets w.
Proof.
  unfold cancel, reject. repeat case_match; try reflexivity;
    rewrite sockets_settle; unfold server_close; repeat case_match; reflexivity.
Qed.

(** C5, as it holds.  [changePort(port)] with [port] different from the
    target port, while an attempt is in flight (the slot holds a pending
    attempt): the attempt is cancelled, so its promise is rejected with the
    default reason, the slot is emptied and the target port is [port].
    What the next [connect()] does depends on the channel: when none
    exists it starts a new attempt that dials [port] on the unchanged
    host; when one exists it returns that channel and dials nothing. *)
Theorem changePort_cancels_the_attempt_in_flight
    (w : World) (port : Z) (p : nat) (hook : option CancelHook) :
  port <> targetPort (this w) ->
  connectingPromise (this w) = Some p ->
  cancelables w !! p = Some {| promise := Pending; onCancel := hook |} ->
  let w' := changePort port w in
  connectingPromise (this w') = None /\
  cancelables w' !! p =
    Some {| promise := RejectedWith default_cancel_reason; onCancel := hook |} /\
  settled w' (CancelablePromise p) = Some (Rejected default_cancel_reason) /\
  targetPort (this w') = port /\
  match clientConnection (this w) with
  | None =>
      snd (connect w') = CancelablePromise (length (cancelables w')) /\
      length (cancelables w') <> p /\
      trace (fst (connect w')) =
        trace w' ++ [SocketConnect (length (sockets w)) port (targetHost (this w))]
  | Some c => connect w' = (w', PromiseResolve c)
  end.
Proof.
  intros Hport Hslot Hpending w'.
  assert (Hneq : (port =? targetPort (this w))%Z = false) by (apply Z.eqb_neq, Hport).
  assert (Hw' : w' = assign (set_connectingPromise None)
                       (cancel p None (assign (set_targetPort port) w))).
  { subst w'. unfold changePort. rewrite Hneq. simpl. rewrite Hslot. reflexivity. }
  assert (Hcs : cancelables w' !! p =
    Some {| promise := RejectedWith default_cancel_reason; onCancel := hook |}).
  { rewrite Hw'. simpl. apply (cancel_pending p None hook). exact Hpending. }
  assert (Hthis : this w' = set_connectingPromise None (set_targetPort port (this w))).
  { rewrite Hw'. simpl. rewrite this_cancel. reflexivity. }
  assert (Hsock : sockets w' = sockets w).
  { rewrite Hw'. simpl. rewrite sockets_cancel. reflexivity. }
  split_and!.
  - rewrite Hthis. reflexivity.
  - exact Hcs.
  - unfold settled. rewrite Hcs. reflexivity.
  - rewrite Hthis. reflexivity.
  - destruct (clientConnection (this w)) as [c|] eqn:Hchannel.
    + unfold connect. rewrite Hthis. simpl. rewrite Hchannel. reflexivity.
    + split_and!.
      * unfold connect. rewrite Hthis. simpl. rewrite Hchannel. reflexivity.
      * apply lookup_lt_Some in Hcs. lia.
      * unfold connect. rewrite Hthis. simpl. rewrite Hchannel. simpl.
        rewrite Hsock, Hthis. reflexivity.
Qed.

(** A dial in flight, and a listening attempt opened on a connected
    proxy. *)
Lemma changePort_cancels_the_attempt_in_flight_witness :
  let w' := changePort 9001 dialing in
  let listening := fst (awaitServerConnection (changePort 9001 connected)) in
  let c := {| conn_id := 0; conn_socket := 0 |} in
  (9001 <> targetPort (this dialing))%Z /\
  connectingPromise (this dialing) = Some 0 /\
  cancelables dialing !! 0 = Some {| promise := Pending; onCancel := None |} /\
  connectingPromise (this w') = None /\
  settled w' (CancelablePromise 0) = Some (Rejected default_cancel_reason) /\
  trace (fst (connect w')) = trace w' ++ [SocketConnect 1 9001 "localhost"] /\
  connect (changePort 9002 listening) = (changePort 9002 listening, PromiseResolve c).
Proof.
  assert (Hport : (9001 <> targetPort (this dialing))%Z) by discriminate.
  destruct (changePort_cancels_the_attempt_in_flight dialing 9001 0 None
              Hport eq_refl eq_refl) as (H1 & _ & H3 & _ & _ & _ & H7).
  assert (Hport2 : (9002 <> targetPort (this (fst (awaitServerConnection
                                                   (changePort 9001 connected)))))%Z)
    by discriminate.
  destruct (changePort_cancels_the_attempt_in_flight
              (fst (awaitServerConnection (changePort 9001 connected))) 9002 1
              (Some (CloseServer 0)) Hport2 eq_refl eq_refl) as (_ & _ & _ & _ & H5).
  cbv zeta. split; [exact Hport|]. split; [reflexivity|]. split; [reflexivity|].
  split; [exact H1|]. split; [exact H3|]. split; [exact H7 | exact H5].
Defined.

(** C5, as stated, fails.  On a connected proxy [changePort] empties the
    slot and [awaitServerConnection()] opens a listening attempt: a
    channel exists and an attempt is in flight.  [changePort] to yet
    another port cancels that attempt and empties the slot, but the next
    [connect()] returns the existing channel: it dials neither the new port
    nor any other. *)
Lemma changePort_with_a_channel_dials_nothing :
  let w := fst (awaitServerConnection (changePort 9001 connected)) in
  let c := {| conn_id := 0; conn_socket := 0 |} in
  let w' := changePort 9002 w in
  clientConnection (this w) = Some c /\
  connectingPromise (this w) = Some 1 /\
  settled w (CancelablePromise 1) = None /\
  targetPort (this w) = 9001%Z /\
  connectingPromise (this w') = None /\
  settled w' (CancelablePromise 1) = Some (Rejected default_cancel_reason) /\
  targetPort (this w') = 9002%Z /\
  connect w' = (w', PromiseResolve c) /\
  trace (fst (connect w')) = trace w' /\
  List.filter is_attempt (trace (fst (connect w'))) =
    [SocketConnect 0 9000 "localhost"; ServerListen 0 9001].
Proof. vm_compute. repeat split; reflexivity. Qed.

(** C6.  For every error value [err], that is, every value the test
    [if (this.error)] takes as an error, [setError(err)] cancels the
    attempt in the slot with [err], so that a pending attempt is rejected
    with [err], empties the slot and stores [err] as the sticky error.
    Through every later call, resumption and event other than another
    [setError], every [initialize] call is rejected at once with exactly
    [err], the world as it was: no [connect()] is attempted. *)
Theorem setError_poisons_initialize
    (RequestCancelled : Z) (fileURLToPath : string -> Settled string)
    (w : World) (err : JsValue) (acts : list Action)
    (clientCapabilities : JsValue) (workspaceFolders : WorkspaceFolder)
    (initOptions : option (list (string * JsValue))) :
  truthy err = true ->
  forallb (fun a => negb (is_setError a)) acts = true ->
  let w' := setError err w in
  let w'' := run RequestCancelled fileURLToPath acts w' in
  connectingPromise (this w') = None /\
  error (this w') = err /\
  (forall p hook,
     connectingPromise (this w) = Some p ->
     cancelables w !! p = Some {| promise := Pending; onCancel := hook |} ->
     cancelables w' !! p = Some {| promise := RejectedWith err; onCancel := hook |} /\
     settled w' (CancelablePromise p) = Some (Rejected err)) /\
  error (this w'') = err /\
  initialize clientCapabilities workspaceFolders initOptions w'' = (w'', Throw err).
Proof.
  intros Herr Hacts w' w''.
  assert (Hthis : error (this w') = err /\ connectingPromise (this w') = None).
  { subst w'. unfold setError.
    destruct (connectingPromise (this w)) eqn:Hslot; simpl;
      rewrite ?this_cancel, ?Hslot; split; reflexivity. }
  assert (Hsticky : error (this w'') = err).
  { subst w''. rewrite run_error by exact Hacts. apply Hthis. }
  split_and!.
  - apply Hthis.
  - apply Hthis.
  - intros p hook Hslot Hpending.
    assert (Hcs : cancelables w' !! p =
                  Some {| promise := RejectedWith err; onCancel := hook |}).
    { subst w'. unfold setError. rewrite Hslot. simpl.
      apply (cancel_pending p (Some err) hook). exact Hpending. }
    split; [exact Hcs|]. unfold settled. rewrite Hcs. reflexivity.
  - exact Hsticky.
  - unfold initialize. rewrite Hsticky, Herr. reflexivity.
Qed.

Lemma setError_poisons_initialize_witness :
  let boom := JsString "launch failed" in
  let w' := setError boom dialing in
  let w'' := run RequestCancelled_code file_path
               [call_changePort 9001; call_handleRequest foo_request;
                event_socket_connect 1] w' in
  truthy boom = true /\
  connectingPromise (this dialing) = Some 0 /\
  cancelables dialing !! 0 = Some {| promise := Pending; onCancel := None |} /\
  settled w' (CancelablePromise 0) = Some (Rejected boom) /\
  clientConnection (this w'') = Some {| conn_id := 0; conn_socket := 1 |} /\
  initialize (JsObject []) proj_folder None w'' = (w'', Throw boom).
Proof.
  destruct (setError_poisons_initialize RequestCancelled_code file_path dialing
              (JsString "launch failed")
              [call_changePort 9001; call_handleRequest foo_request;
               event_socket_connect 1]
              (JsObject []) proj_folder None eq_refl eq_refl)
    as (_ & _ & Hcancel & _ & Hinit).
  destruct (Hcancel 0 None eq_refl eq_refl) as [_ Hsettled].
  cbv zeta. split_and!.
  - reflexivity.
  - reflexivity.
  - reflexivity.
  - exact Hsettled.
  - vm_compute. reflexivity.
  - exact Hinit.
Defined.

(** * Further properties of the proxy *)

(** ** The heap of attempts *)

Lemma insert_last {A : Type} (l : list A) (x y : A) :
  <[length l := x]> (l ++ [y]) = l ++ [x].
Proof.
  rewrite insert_app_r_alt by lia. rewrite Nat.sub_diag. reflexivity.
Qed.

Lemma servers_settle p s w : servers (settle p s w) = servers w.
Proof. unfold settle. repeat case_match; reflexivity. Qed.

Lemma connections_settle p s w : connections (settle p s w) = connections w.
Proof. unfold settle. repeat case_match; reflexivity. Qed.

(** Settling a pending attempt stores the new state. *)
Lemma settle_pending p s hook w :
  cancelables w !! p = Some {| promise := Pending; onCancel := hook |} ->
  cancelables (settle p s w) = <[p := {| promise := s; onCancel := hook |}]> (cancelables w).
Proof. intros H. unfold settle. rewrite H. reflexivity. Qed.

(** Settling leaves every other attempt as it is. *)
Lemma settle_other p q s w :
  p <> q -> cancelables (settle p s w) !! q = cancelables w !! q.
Proof.
  intros Hne. unfold settle.
  destruct (cancelables w !! p) as [[st hook]|] eqn:Hp; [|reflexivity].
  destruct st; try reflexivity. simpl. apply list_lookup_insert_ne, Hne.
Qed.

(** A settled attempt is not settled again. *)
Lemma settle_settled p s st hook w :
  cancelables w !! p = Some {| promise := st; onCancel := hook |} ->
  st <> Pending -> settle p s w = w.
Proof.
  intros H Hst. unfold settle. rewrite H. simpl.
  destruct st; [congruence | reflexivity | reflexivity].
Qed.

(** What [connect()] does when it has to dial. *)
Lemma connect_dials w :
  clientConnection (this w) = None -> connectingPromise (this w) = None ->
  connect w =
    (assign (set_connectingPromise (Some (length (cancelables w))))
       (perform (SocketConnect (length (sockets w)) (targetPort (this w))
                   (targetHost (this w)))
          (assign (set_socket (Some (length (sockets w))))
             (with_sockets (sockets w ++ [Dialed (length (cancelables w))])
                (with_cancelables
                   (cancelables w ++ [{| promise := Pending; onCancel := None |}]) w)))),
     CancelablePromise (length (cancelables w))).
Proof. intros Hc Hp. unfold connect. rewrite Hc, Hp. reflexivity. Qed.

(** The [connect] handler of the socket [connect()] has just dialed. *)
Lemma dialed_socket_connects w :
  clientConnection (this w) = None -> connectingPromise (this w) = None ->
  let w1 := fst (connect w) in
  let c := {| conn_id := connections w; conn_socket := length (sockets w) |} in
  let w2 := socket_on_connect (length (sockets w)) w1 in
  this w2 = set_clientConnection (Some c) (this w1) /\
  cancelables w2 = cancelables w ++ [{| promise := Resolved c; onCancel := None |}] /\
  trace w2 = trace w1 ++ [OnNotification c; Listen c]
               ++ map (Invoke ev_connect) (listeners ev_connect w) /\
  sockets w2 = sockets w1 /\ servers w2 = servers w /\
  connections w2 = S (connections w).
Proof.
  intros Hc Hp. rewrite (connect_dials w Hc Hp). cbv zeta.
  unfold socket_on_connect.
  cbn [fst sockets assign perform with_sockets with_cancelables this socket set_socket
       set_connectingPromise].
  rewrite list_lookup_middle by reflexivity.
  cbn [createMessageConnection registerOnNotificationHandler].
  unfold resolve.
  set (c := {| conn_id := _; conn_socket := _ |}).
  match goal with
  | |- context [settle ?p ?s ?w0] =>
      assert (Hs : cancelables (settle p s w0)
                   = cancelables w ++ [{| promise := s; onCancel := None |}]);
      [| pose proof (this_settle p s w0) as H1;
         pose proof (trace_settle p s w0) as H2;
         pose proof (sockets_settle p s w0) as H3;
         pose proof (servers_settle p s w0) as H4;
         pose proof (connections_settle p s w0) as H5;
         set (ws := settle p s w0) in * ]
  end.
  { erewrite settle_pending.
    - simpl. rewrite insert_last. reflexivity.
    - simpl. apply list_lookup_middle. reflexivity. }
  unfold emit, listeners.
  cbn [this cancelables trace sockets servers connections perform_all called].
  rewrite H1, H2, H3, H4, H5, Hs. clearbody ws.
  split_and!; try reflexivity.
  simpl. rewrite <- !app_assoc. reflexivity.
Qed.

Lemma handleRequest_open rc request w :
  closed (this w) = false ->
  handleRequest rc request w =
    (fst (connect w),
     Await (handleRequest_at_connect (initial_response rc) request (snd (connect w)))).
Proof.
  intros Hopen. unfold handleRequest. rewrite Hopen. destruct (connect w). reflexivity.
Qed.

Lemma closed_connect w : closed (this (fst (connect w))) = closed (this w).
Proof.
  unfold connect, new_Cancelable.
  destruct (clientConnection (this w)); [reflexivity|].
  destruct (connectingPromise (this w)); reflexivity.
Qed.

(** A call suspended on a fulfilled connection promise forwards its
    message over the connection the promise holds. *)
Lemma resume_handleRequest_fulfilled fu response request p c reply w :
  settled w p = Some (Fulfilled c) ->
  resume_frame fu (handleRequest_at_connect response request p) reply w =
    (perform (forwarded c request) w,
     match call_of reply with
     | Returns =>
         if isNotification request then Return (RetResponse response)
         else Await (handleRequest_at_sendRequest response)
     | Throws e =>
         if isNotification request then Throw e
         else Return (RetResponse (ResponseMessage.set_error e response))
     end).
Proof.
  intros Hs. unfold resume_frame. rewrite Hs.
  unfold handleRequest_after_connect, forwarded.
  destruct (isNotification request), (call_of reply); reflexivity.
Qed.

Lemma socket_closes w s :
  is_Some (sockets w !! s) ->
  let w1 := socket_on_close s w in
  this w1 = set_connectingPromise None (set_clientConnection None (this w)) /\
  cancelables w1 = cancelables w /\ sockets w1 = sockets w /\
  servers w1 = servers w /\ connections w1 = connections w /\
  trace w1 = trace w ++ map (Invoke ev_close) (listeners ev_close w).
Proof.
  intros [i Hs]. unfold socket_on_close. rewrite Hs. repeat split.
Qed.

(** ** Sharing and reconnecting *)

(** X1.  Two requests issued on an open proxy that has neither a channel
    nor an attempt share one dial: the first call dials, the second
    changes nothing, and both wait on the same promise.  When the dialed
    socket connects, both calls resume and forward their messages, in call
    order, over the one channel that was created. *)
Theorem requests_before_connection_share_one_dial
    (RequestCancelled : Z) (fileURLToPath : string -> Settled string)
    (w : World) (r1 r2 : LspRequest) (reply1 reply2 : Settled JsValue) :
  closed (this w) = false ->
  clientConnection (this w) = None ->
  connectingPromise (this w) = None ->
  let p := CancelablePromise (length (cancelables w)) in
  let c := {| conn_id := connections w; conn_socket := length (sockets w) |} in
  let f1 := handleRequest_at_connect (initial_response RequestCancelled) r1 p in
  let f2 := handleRequest_at_connect (initial_response RequestCancelled) r2 p in
  let w1 := fst (handleRequest RequestCancelled r1 w) in
  let w2 := fst (handleRequest RequestCancelled r2 w1) in
  let w3 := socket_on_connect (length (sockets w)) w2 in
  let w4 := fst (resume_frame fileURLToPath f1 reply1 w3) in
  let w5 := fst (resume_frame fileURLToPath f2 reply2 w4) in
  snd (handleRequest RequestCancelled r1 w) = Await f1 /\
  snd (handleRequest RequestCancelled r2 w1) = Await f2 /\
  w2 = w1 /\
  clientConnection (this w5) = Some c /\
  trace w5 =
    trace w ++ [SocketConnect (length (sockets w)) (targetPort (this w))
                  (targetHost (this w));
                OnNotification c; Listen c]
      ++ map (Invoke ev_connect) (listeners ev_connect w)
      ++ [forwarded c r1; forwarded c r2].
Proof.
  intros Hopen Hc Hp p c f1 f2 w1 w2 w3 w4 w5.
  assert (Hw1 : w1 = fst (connect w)).
  { subst w1. rewrite handleRequest_open by exact Hopen. reflexivity. }
  assert (Hsnd : snd (connect w) = p).
  { rewrite (connect_dials w Hc Hp). reflexivity. }
  assert (Hopen1 : closed (this w1) = false).
  { rewrite Hw1, closed_connect. exact Hopen. }
  assert (Hagain : connect w1 = (w1, p)).
  { rewrite Hw1, connect_again, Hsnd. reflexivity. }
  assert (Hw2 : w2 = w1).
  { subst w2. rewrite handleRequest_open by exact Hopen1. rewrite Hagain. reflexivity. }
  destruct (dialed_socket_connects w Hc Hp) as (Hthis & Hcs & Htr & _).
  cbv zeta in Hthis, Hcs, Htr. fold c in Hthis, Hcs, Htr.
  assert (Hw3 : w3 = socket_on_connect (length (sockets w)) (fst (connect w))).
  { subst w3. rewrite Hw2, Hw1. reflexivity. }
  rewrite <- Hw3 in Hthis, Hcs, Htr.
  assert (Hs3 : settled w3 p = Some (Fulfilled c)).
  { unfold settled, p. rewrite Hcs, list_lookup_middle by reflexivity. reflexivity. }
  assert (Hr4 : resume_frame fileURLToPath f1 reply1 w3 = (perform (forwarded c r1) w3, _))
    by (apply resume_handleRequest_fulfilled, Hs3).
  assert (Hw4 : w4 = perform (forwarded c r1) w3) by (subst w4; rewrite Hr4; reflexivity).
  assert (Hs4 : settled w4 p = Some (Fulfilled c)) by (rewrite Hw4; exact Hs3).
  assert (Hw5 : w5 = perform (forwarded c r2) w4).
  { unfold w5, f2.
    rewrite (resume_handleRequest_fulfilled fileURLToPath _ r2 p c reply2 w4 Hs4).
    reflexivity. }
  split_and!.
  - rewrite handleRequest_open by exact Hopen. rewrite Hsnd. reflexivity.
  - rewrite handleRequest_open by exact Hopen1. rewrite Hagain. reflexivity.
  - exact Hw2.
  - rewrite Hw5, Hw4. simpl. rewrite Hthis. reflexivity.
  - rewrite Hw5, Hw4. simpl. rewrite Htr.
    rewrite (connect_dials w Hc Hp). simpl. rewrite <- !app_assoc. reflexivity.
Qed.

Lemma requests_before_connection_share_one_dial_witness :
  let note := {| method := "note"; params := JsNull; isNotification := true |} in
  let c := {| conn_id := 0; conn_socket := 0 |} in
  closed (this fresh) = false /\ clientConnection (this fresh) = None /\
  connectingPromise (this fresh) = None /\
  trace
    (fst (resume_frame file_path
            (handleRequest_at_connect (initial_response RequestCancelled_code) note
               (CancelablePromise 0)) (Fulfilled JsNull)
            (fst (resume_frame file_path
                    (handleRequest_at_connect (initial_response RequestCancelled_code)
                       foo_request (CancelablePromise 0)) (Fulfilled JsNull)
                    (socket_on_connect 0
                       (fst (handleRequest RequestCancelled_code note
                               (fst (handleRequest RequestCancelled_code foo_request
                                       fresh)))))))))
  = [SocketConnect 0 9000 "localhost"; OnNotification c; Listen c;
     SendRequest c "foo" [JsNumber 1; JsNumber 2];
     SendNotification c "note" [JsNull]].
Proof.
  destruct (requests_before_connection_share_one_dial RequestCancelled_code file_path
              fresh foo_request
              {| method := "note"; params := JsNull; isNotification := true |}
              (Fulfilled JsNull) (Fulfilled JsNull) eq_refl eq_refl eq_refl)
    as (_ & _ & _ & _ & Htrace).
  cbv zeta. split; [reflexivity|]. split; [reflexivity|]. split; [reflexivity|].
  exact Htrace.
Defined.

(** X2.  On an open proxy with a channel, [handleRequest] dials nothing
    and suspends on a promise already fulfilled with that channel; when it
    resumes it forwards the message over that same channel, whatever has
    happened to the proxy in between: the channel is not looked up
    again. *)
Theorem handleRequest_uses_the_channel_it_found
    (RequestCancelled : Z) (fileURLToPath : string -> Settled string)
    (w later : World) (request : LspRequest) (c : MessageConnection)
    (reply : Settled JsValue) :
  closed (this w) = false ->
  clientConnection (this w) = Some c ->
  let f := handleRequest_at_connect (initial_response RequestCancelled) request
             (PromiseResolve c) in
  handleRequest RequestCancelled request w = (w, Await f) /\
  fst (resume_frame fileURLToPath f reply later) = perform (forwarded c request) later /\
  this (fst (resume_frame fileURLToPath f reply later)) = this later.
Proof.
  intros Hopen Hc f.
  assert (Hconn : connect w = (w, PromiseResolve c)).
  { unfold connect. rewrite Hc. reflexivity. }
  assert (Hr : resume_frame fileURLToPath f reply later = (perform (forwarded c request) later, _))
    by (apply resume_handleRequest_fulfilled; reflexivity).
  split_and!.
  - rewrite handleRequest_open by exact Hopen. rewrite Hconn. reflexivity.
  - rewrite Hr. reflexivity.
  - rewrite Hr. reflexivity.
Qed.

(** The socket closes between the call and its resumption. *)
Lemma handleRequest_uses_the_channel_it_found_witness :
  let c := {| conn_id := 0; conn_socket := 0 |} in
  let later := socket_on_close 0 connected in
  closed (this connected) = false /\ clientConnection (this connected) = Some c /\
  clientConnection (this later) = None /\
  trace (fst (resume_frame file_path
                (handleRequest_at_connect (initial_response RequestCancelled_code)
                   foo_request (PromiseResolve c)) (Fulfilled JsNull) later))
  = trace later ++ [SendRequest c "foo" [JsNumber 1; JsNumber 2]].
Proof.
  destruct (handleRequest_uses_the_channel_it_found RequestCancelled_code file_path
              connected (socket_on_close 0 connected) foo_request
              {| conn_id := 0; conn_socket := 0 |} (Fulfilled JsNull) eq_refl eq_refl)
    as (_ & Hw & _).
  cbv zeta. split; [reflexivity|]. split; [reflexivity|]. split; [reflexivity|].
  rewrite Hw. reflexivity.
Defined.

(** Settling looks at the heap of attempts only. *)
Lemma cancelables_settle_ext p s w w0 :
  cancelables w0 = cancelables w ->
  cancelables (settle p s w0) = cancelables (settle p s w).
Proof.
  intros H. unfold settle. rewrite H.
  destruct (cancelables w !! p) as [[st hook]|]; [|exact H].
  destruct st; simpl; rewrite ?H; reflexivity.
Qed.

(** The [connect] handler of a dialed socket, whatever socket the proxy
    currently holds in [this.socket]. *)
Lemma socket_connects w s p cur :
  sockets w !! s = Some (Dialed p) -> socket (this w) = Some cur ->
  let c := {| conn_id := connections w; conn_socket := cur |} in
  let w' := socket_on_connect s w in
  this w' = set_clientConnection (Some c) (this w) /\
  cancelables w' = cancelables (settle p (Resolved c) w) /\
  trace w' = trace w ++ [OnNotification c; Listen c]
               ++ map (Invoke ev_connect) (listeners ev_connect w) /\
  sockets w' = sockets w /\ servers w' = servers w /\
  connections w' = S (connections w).
Proof.
  intros Hs Hcur. cbv zeta. unfold socket_on_connect. rewrite Hs, Hcur.
  cbn [createMessageConnection registerOnNotificationHandler].
  unfold resolve, emit, listeners.
  cbn [this cancelables trace sockets servers connections perform_all called].
  rewrite this_settle, trace_settle, sockets_settle, servers_settle, connections_settle.
  split_and!; try reflexivity.
  - apply cancelables_settle_ext. reflexivity.
  - simpl. rewrite <- !app_assoc. reflexivity.
Qed.

Lemma cancel_pending_all p reason hook w :
  cancelables w !! p = Some {| promise := Pending; onCancel := hook |} ->
  cancelables (cancel p reason w) =
    <[p := {| promise := RejectedWith (default default_cancel_reason reason);
              onCancel := hook |}]> (cancelables w).
Proof.
  intros H. unfold cancel, reject. rewrite H. simpl.
  destruct hook as [[srv]|].
  - erewrite settle_pending by (rewrite cancelables_server_close; exact H).
    rewrite cancelables_server_close. reflexivity.
  - erewrite settle_pending by exact H. reflexivity.
Qed.

Lemma changePort_other_port port w :
  port <> targetPort (this w) ->
  changePort port w =
    match connectingPromise (this w) with
    | Some p => assign (set_connectingPromise None)
                  (cancel p None (assign (set_targetPort port) w))
    | None => assign (set_targetPort port) w
    end.
Proof.
  intros Hport. unfold changePort.
  destruct (Z.eqb_spec port (targetPort (this w))); [contradiction|]. reflexivity.
Qed.

(** X3.  When a socket of the proxy closes, the channel reference and the
    attempt slot are cleared, the [close] listeners are called and nothing
    else is done: no promise is settled and nothing is dialed.  The next
    [connect()] then starts a fresh attempt that dials the current target,
    whether or not the proxy is closed. *)
Theorem socket_close_then_connect_redials (w : World) (s : nat) :
  is_Some (sockets w !! s) ->
  let w1 := socket_on_close s w in
  clientConnection (this w1) = None /\
  connectingPromise (this w1) = None /\
  closed (this w1) = closed (this w) /\
  cancelables w1 = cancelables w /\
  trace w1 = trace w ++ map (Invoke ev_close) (listeners ev_close w) /\
  snd (connect w1) = CancelablePromise (length (cancelables w)) /\
  trace (fst (connect w1)) =
    trace w1 ++ [SocketConnect (length (sockets w)) (targetPort (this w))
                   (targetHost (this w))].
Proof.
  intros Hs w1.
  destruct (socket_closes w s Hs) as (Hthis & Hcs & Hsock & _ & _ & Htr).
  fold w1 in Hthis, Hcs, Hsock, Htr.
  assert (Hc : clientConnection (this w1) = None) by (rewrite Hthis; reflexivity).
  assert (Hp : connectingPromise (this w1) = None) by (rewrite Hthis; reflexivity).
  split_and!; try assumption.
  - rewrite Hthis. reflexivity.
  - rewrite (connect_dials w1 Hc Hp), Hcs. reflexivity.
  - rewrite (connect_dials w1 Hc Hp). simpl. rewrite Hsock, Hthis. reflexivity.
Qed.

Lemma socket_close_then_connect_redials_witness :
  let w1 := socket_on_close 0 connected in
  is_Some (sockets connected !! 0) /\
  clientConnection (this w1) = None /\
  trace (fst (connect w1)) = trace w1 ++ [SocketConnect 1 9000 "localhost"].
Proof.
  assert (Hs : is_Some (sockets connected !! 0)) by (eexists; reflexivity).
  destruct (socket_close_then_connect_redials connected 0 Hs)
    as (Hc & _ & _ & _ & _ & _ & Htr).
  cbv zeta. split; [exact Hs|]. split; [exact Hc|]. exact Htr.
Defined.

(** X4.  A socket [close] event does not settle the attempt that was in the
    slot.  A call suspended on a pending attempt stays suspended after the
    close; the next [connect()] creates a different attempt, and when the
    socket of that new attempt connects, the new attempt is fulfilled while
    the old one is still pending: the earlier caller is not resumed. *)
Theorem socket_close_orphans_pending_attempt
    (fileURLToPath : string -> Settled string)
    (w : World) (s p : nat) (hook : option CancelHook)
    (response : ResponseMessage.t) (request : LspRequest) (reply : Settled JsValue) :
  is_Some (sockets w !! s) ->
  cancelables w !! p = Some {| promise := Pending; onCancel := hook |} ->
  let f := handleRequest_at_connect response request (CancelablePromise p) in
  let w1 := socket_on_close s w in
  let q := length (cancelables w) in
  let c := {| conn_id := connections w; conn_socket := length (sockets w) |} in
  let w3 := socket_on_connect (length (sockets w)) (fst (connect w1)) in
  resume_frame fileURLToPath f reply w1 = (w1, Await f) /\
  snd (connect w1) = CancelablePromise q /\ q <> p /\
  clientConnection (this w3) = Some c /\
  settled w3 (CancelablePromise q) = Some (Fulfilled c) /\
  resume_frame fileURLToPath f reply w3 = (w3, Await f).
Proof.
  intros Hs Hpending f w1 q c w3.
  destruct (socket_closes w s Hs) as (Hthis & Hcs & Hsock & _ & Hconn & _).
  fold w1 in Hthis, Hcs, Hsock, Hconn.
  assert (Hc : clientConnection (this w1) = None) by (rewrite Hthis; reflexivity).
  assert (Hp : connectingPromise (this w1) = None) by (rewrite Hthis; reflexivity).
  destruct (dialed_socket_connects w1 Hc Hp) as (Hthis3 & Hcs3 & _).
  cbv zeta in Hthis3, Hcs3. rewrite Hsock, Hconn in Hthis3, Hcs3.
  rewrite Hcs in Hcs3. fold w3 c in Hthis3, Hcs3.
  assert (Hlt : p < length (cancelables w)) by (eapply lookup_lt_Some; exact Hpending).
  assert (Hs1 : settled w1 (CancelablePromise p) = None).
  { unfold settled. rewrite Hcs, Hpending. reflexivity. }
  assert (Hs3 : settled w3 (CancelablePromise p) = None).
  { unfold settled. rewrite Hcs3, lookup_app_l by exact Hlt.
    rewrite Hpending. reflexivity. }
  split_and!.
  - unfold f, resume_frame. rewrite Hs1. reflexivity.
  - rewrite (connect_dials w1 Hc Hp), Hcs. reflexivity.
  - unfold q. lia.
  - rewrite Hthis3. reflexivity.
  - unfold settled, q. rewrite Hcs3, list_lookup_middle by reflexivity. reflexivity.
  - unfold f, resume_frame. rewrite Hs3. reflexivity.
Qed.

(** The dial of a fresh proxy fails and its socket closes; a second
    request reconnects, the first one stays suspended. *)
Lemma socket_close_orphans_pending_attempt_witness :
  let f := handleRequest_at_connect (initial_response RequestCancelled_code)
             foo_request (CancelablePromise 0) in
  let w3 := socket_on_connect 1 (fst (connect (socket_on_close 0 dialing))) in
  is_Some (sockets dialing !! 0) /\
  cancelables dialing !! 0 = Some {| promise := Pending; onCancel := None |} /\
  settled w3 (CancelablePromise 1)
    = Some (Fulfilled {| conn_id := 0; conn_socket := 1 |}) /\
  resume_frame file_path f (Fulfilled JsNull) w3 = (w3, Await f).
Proof.
  assert (Hs : is_Some (sockets dialing !! 0)) by (eexists; reflexivity).
  destruct (socket_close_orphans_pending_attempt file_path dialing 0 0 None
              (initial_response RequestCancelled_code) foo_request (Fulfilled JsNull)
              Hs eq_refl) as (_ & _ & _ & _ & Hq & Hf).
  cbv zeta. split; [exact Hs|]. split; [reflexivity|]. split; [exact Hq|]. exact Hf.
Defined.

Lemma servers_cancel_sockets p reason w :
  sockets (cancel p reason w) = sockets w /\
  connections (cancel p reason w) = connections w.
Proof.
  unfold cancel, reject.
  destruct (cancelables w !! p) as [[st hook]|]; [|split; reflexivity].
  destruct st; try (split; reflexivity). simpl.
  rewrite sockets_settle, connections_settle.
  destruct hook as [[srv]|]; [|split; reflexivity].
  unfold server_close. destruct (servers w !! srv); split; reflexivity.
Qed.

(** ** changePort beyond the in-flight case *)

(** X5.  [changePort(port)] with a different port on a proxy that has a
    channel stores the port and empties the attempt slot but keeps the
    channel: the next [connect()] still returns the existing channel and
    dials nothing.  The new port is dialed only by the [connect()] that
    follows the close of a socket. *)
Theorem changePort_keeps_the_channel
    (w : World) (port : Z) (c : MessageConnection) (s : nat) :
  port <> targetPort (this w) ->
  clientConnection (this w) = Some c ->
  is_Some (sockets w !! s) ->
  let w1 := changePort port w in
  let w2 := socket_on_close s w1 in
  targetPort (this w1) = port /\
  connectingPromise (this w1) = None /\
  clientConnection (this w1) = Some c /\
  connect w1 = (w1, PromiseResolve c) /\
  trace (fst (connect w2)) =
    trace w2 ++ [SocketConnect (length (sockets w)) port (targetHost (this w))].
Proof.
  intros Hport Hc Hs w1 w2.
  assert (Hthis : this w1 = set_connectingPromise None (set_targetPort port (this w))).
  { unfold w1. rewrite changePort_other_port by exact Hport.
    destruct (connectingPromise (this w)) as [p|] eqn:Hp; simpl.
    - rewrite this_cancel. reflexivity.
    - destruct (this w). simpl in *. subst. reflexivity. }
  assert (Hsock : sockets w1 = sockets w).
  { unfold w1. rewrite changePort_other_port by exact Hport.
    destruct (connectingPromise (this w)); simpl; [|reflexivity].
    rewrite sockets_cancel. reflexivity. }
  assert (Hc1 : clientConnection (this w1) = Some c) by (rewrite Hthis; exact Hc).
  assert (Hs1 : is_Some (sockets w1 !! s)) by (rewrite Hsock; exact Hs).
  destruct (socket_closes w1 s Hs1) as (Hthis2 & _ & Hsock2 & _).
  fold w2 in Hthis2, Hsock2.
  split_and!.
  - rewrite Hthis. reflexivity.
  - rewrite Hthis. reflexivity.
  - exact Hc1.
  - unfold connect. rewrite Hc1. reflexivity.
  - rewrite connect_dials by (rewrite Hthis2; reflexivity).
    simpl. rewrite Hsock2, Hsock, Hthis2, Hthis. reflexivity.
Qed.

Lemma changePort_keeps_the_channel_witness :
  let c := {| conn_id := 0; conn_socket := 0 |} in
  let w1 := changePort 9001 connected in
  (9001 <> targetPort (this connected))%Z /\
  clientConnection (this connected) = Some c /\
  is_Some (sockets connected !! 0) /\
  connect w1 = (w1, PromiseResolve c) /\
  trace (fst (connect (socket_on_close 0 w1))) =
    trace (socket_on_close 0 w1) ++ [SocketConnect 1 9001 "localhost"].
Proof.
  assert (Hport : (9001 <> targetPort (this connected))%Z) by discriminate.
  assert (Hs : is_Some (sockets connected !! 0)) by (eexists; reflexivity).
  destruct (changePort_keeps_the_channel connected 9001
              {| conn_id := 0; conn_socket := 0 |} 0 Hport eq_refl Hs)
    as (_ & _ & _ & Hconn & Htr).
  cbv zeta. split; [exact Hport|]. split; [reflexivity|]. split; [exact Hs|].
  split; [exact Hconn | exact Htr].
Defined.

(** X6.  A dial is in flight on socket [s]; [changePort] cancels it and the
    next [connect()] dials the new port on a new socket.  If socket [s]
    then connects after all, its handler builds the channel over the
    socket the proxy holds now, the new one, and resolves the cancelled
    attempt, which has no effect: the proxy has a channel, while the
    attempt in the slot is still pending and its callers stay suspended. *)
Theorem late_connect_of_cancelled_dial
    (w : World) (port : Z) (s p : nat) :
  port <> targetPort (this w) ->
  clientConnection (this w) = None ->
  connectingPromise (this w) = Some p ->
  cancelables w !! p = Some {| promise := Pending; onCancel := None |} ->
  sockets w !! s = Some (Dialed p) ->
  let q := length (cancelables w) in
  let s' := length (sockets w) in
  let c := {| conn_id := connections w; conn_socket := s' |} in
  let w1 := changePort port w in
  let w2 := fst (connect w1) in
  let w3 := socket_on_connect s w2 in
  snd (connect w1) = CancelablePromise q /\
  socket (this w2) = Some s' /\ s' <> s /\
  clientConnection (this w3) = Some c /\
  connectingPromise (this w3) = Some q /\
  settled w3 (CancelablePromise q) = None /\
  settled w3 (CancelablePromise p) = Some (Rejected default_cancel_reason) /\
  connect w3 = (w3, PromiseResolve c).
Proof.
  intros Hport Hc Hp Hpending Hs q s' c w1 w2 w3.
  set (rejected := {| promise := RejectedWith default_cancel_reason; onCancel := None |}).
  assert (Hw1 : w1 = assign (set_connectingPromise None)
                       (cancel p None (assign (set_targetPort port) w))).
  { unfold w1. rewrite changePort_other_port by exact Hport. rewrite Hp. reflexivity. }
  assert (Hthis1 : this w1 = set_connectingPromise None (set_targetPort port (this w))).
  { rewrite Hw1. simpl. rewrite this_cancel. reflexivity. }
  assert (Hcs1 : cancelables w1 = <[p := rejected]> (cancelables w)).
  { rewrite Hw1.
    exact (cancel_pending_all p None None (assign (set_targetPort port) w) Hpending). }
  assert (Hsock1 : sockets w1 = sockets w /\ connections w1 = connections w).
  { rewrite Hw1. simpl.
    destruct (servers_cancel_sockets p None (assign (set_targetPort port) w)) as [H1 H2].
    rewrite H1, H2. split; reflexivity. }
  destruct Hsock1 as [Hsock1 Hconn1].
  assert (Hc1 : clientConnection (this w1) = None) by (rewrite Hthis1; exact Hc).
  assert (Hp1 : connectingPromise (this w1) = None) by (rewrite Hthis1; reflexivity).
  assert (Hlen : length (cancelables w1) = q).
  { rewrite Hcs1. apply length_insert. }
  assert (Hplt : p < q) by (eapply lookup_lt_Some; exact Hpending).
  assert (Hslt : s < s') by (eapply lookup_lt_Some; exact Hs).
  pose proof (connect_dials w1 Hc1 Hp1) as Hconnect.
  rewrite Hlen, Hsock1 in Hconnect. fold s' in Hconnect.
  assert (Hthis2 : this w2 = set_connectingPromise (Some q)
                               (set_socket (Some s') (this w1))).
  { unfold w2. rewrite Hconnect. reflexivity. }
  assert (Hcs2 : cancelables w2 =
                 <[p := rejected]> (cancelables w)
                   ++ [{| promise := Pending; onCancel := None |}]).
  { unfold w2. rewrite Hconnect. simpl. rewrite Hcs1. reflexivity. }
  assert (Hsock2 : sockets w2 !! s = Some (Dialed p)).
  { unfold w2. rewrite Hconnect. simpl. apply lookup_app_l_Some. exact Hs. }
  assert (Hconn2 : connections w2 = connections w).
  { unfold w2. rewrite Hconnect. simpl. exact Hconn1. }
  assert (Hcur : socket (this w2) = Some s') by (rewrite Hthis2; reflexivity).
  destruct (socket_connects w2 s p s' Hsock2 Hcur) as (Hthis3 & Hcs3 & _).
  cbv zeta in Hthis3, Hcs3. fold w3 in Hthis3, Hcs3.
  rewrite Hconn2 in Hthis3, Hcs3. fold c in Hthis3, Hcs3.
  assert (Hp2 : cancelables w2 !! p = Some rejected).
  { rewrite Hcs2. apply lookup_app_l_Some, list_lookup_insert_eq. exact Hplt. }
  rewrite (settle_settled p (Resolved c) _ _ w2 Hp2) in Hcs3 by discriminate.
  split_and!.
  - rewrite Hconnect. reflexivity.
  - exact Hcur.
  - lia.
  - rewrite Hthis3. reflexivity.
  - rewrite Hthis3, Hthis2. reflexivity.
  - unfold settled. rewrite Hcs3, Hcs2. unfold q.
    rewrite <- (length_insert (cancelables w) p rejected) at 1.
    rewrite list_lookup_middle by reflexivity. reflexivity.
  - unfold settled. rewrite Hcs3, Hp2. reflexivity.
  - unfold connect. rewrite Hthis3. reflexivity.
Qed.

Lemma late_connect_of_cancelled_dial_witness :
  let w3 := socket_on_connect 0 (fst (connect (changePort 9001 dialing))) in
  (9001 <> targetPort (this dialing))%Z /\
  clientConnection (this dialing) = None /\
  connectingPromise (this dialing) = Some 0 /\
  cancelables dialing !! 0 = Some {| promise := Pending; onCancel := None |} /\
  sockets dialing !! 0 = Some (Dialed 0) /\
  clientConnection (this w3) = Some {| conn_id := 0; conn_socket := 1 |} /\
  settled w3 (CancelablePromise 1) = None.
Proof.
  assert (Hport : (9001 <> targetPort (this dialing))%Z) by discriminate.
  destruct (late_connect_of_cancelled_dial dialing 9001 0 0
              Hport eq_refl eq_refl eq_refl eq_refl)
    as (_ & _ & _ & Hc & _ & Hq & _).
  cbv zeta. split; [exact Hport|]. split; [reflexivity|]. split; [reflexivity|].
  split; [reflexivity|]. split; [reflexivity|]. split; [exact Hc | exact Hq].
Defined.

(** ** An invariant of the attempt slot *)

Lemma no_stale_same w w' :
  clientConnection (this w') = clientConnection (this w) ->
  connectingPromise (this w') = connectingPromise (this w) ->
  cancelables w' = cancelables w ->
  no_stale_fulfilment w -> no_stale_fulfilment w'.
Proof.
  intros Hc Hp Hcs Inv Hc' p c Hp'. unfold settled. rewrite Hcs.
  apply (Inv ltac:(congruence) p c). congruence.
Qed.

Lemma no_stale_channel w c :
  clientConnection (this w) = Some c -> no_stale_fulfilment w.
Proof. intros Hc Hn. congruence. Qed.

Lemma no_stale_empty_slot w :
  connectingPromise (this w) = None -> no_stale_fulfilment w.
Proof. intros Hp _ p c Hp'. congruence. Qed.

Lemma no_stale_connect w :
  no_stale_fulfilment w -> no_stale_fulfilment (fst (connect w)).
Proof.
  intros Inv. unfold connect.
  destruct (clientConnection (this w)) as [c|] eqn:Hc; [exact Inv|].
  destruct (connectingPromise (this w)) as [p|] eqn:Hp; [exact Inv|].
  intros _ p c Hp'. simpl in Hp'. injection Hp' as <-.
  unfold settled. simpl. rewrite list_lookup_middle by reflexivity. discriminate.
Qed.

Lemma no_stale_awaitServerConnection w :
  no_stale_fulfilment w -> no_stale_fulfilment (fst (awaitServerConnection w)).
Proof.
  intros Inv. unfold awaitServerConnection.
  destruct (connectingPromise (this w)) as [p|] eqn:Hp; [exact Inv|].
  intros _ p c Hp'. simpl in Hp'. injection Hp' as <-.
  unfold settled. simpl. rewrite list_lookup_middle by reflexivity. discriminate.
Qed.

(** A rejection never makes an attempt fulfilled. *)
Lemma settled_after_reject q e w p c :
  settled (settle q (RejectedWith e) w) (CancelablePromise p) = Some (Fulfilled c) ->
  settled w (CancelablePromise p) = Some (Fulfilled c).
Proof.
  unfold settled. destruct (decide (q = p)) as [->|Hne].
  - unfold settle. destruct (cancelables w !! p) as [[st hook]|] eqn:Hp; simpl.
    + destruct st; simpl; rewrite ?Hp; try (intros H; exact H).
      rewrite list_lookup_insert_eq by (eapply lookup_lt_Some; exact Hp).
      discriminate.
    + rewrite Hp. intros H; exact H.
  - rewrite settle_other by exact Hne. intros H; exact H.
Qed.

Lemma cancelables_resume_frame fu f reply w :
  cancelables (fst (resume_frame fu f reply w)) = cancelables w.
Proof.
  destruct f; simpl; unfold_methods; repeat (case_match; simpl in * );
    simplify_eq; reflexivity.
Qed.

Lemma step_no_stale rc fu a w :
  no_stale_fulfilment w -> no_stale_fulfilment (step rc fu a w).
Proof.
  intros Inv. destruct a; cbn [step].
  - unfold handleRequest. destruct (closed (this w)); [exact Inv|].
    pose proof (no_stale_connect w Inv). destruct (connect w). assumption.
  - unfold initialize. destruct (truthy (error (this w))); [exact Inv|].
    pose proof (no_stale_connect w Inv). destruct (connect w). assumption.
  - unfold shutdown.
    pose proof (no_stale_connect w Inv). destruct (connect w). assumption.
  - destruct (exit_world w) as (Hthis & _ & Hcs & _). cbv zeta in Hthis, Hcs.
    eapply no_stale_same;
      [rewrite Hthis; reflexivity | rewrite Hthis; reflexivity | exact Hcs | exact Inv].
  - apply no_stale_awaitServerConnection, Inv.
  - eapply no_stale_same; [| | |exact Inv]; reflexivity.
  - eapply no_stale_same; [| | |exact Inv]; reflexivity.
  - eapply no_stale_same; [| | |exact Inv]; reflexivity.
  - apply no_stale_connect, Inv.
  - exact Inv.
  - unfold changePort. destruct (negb (port =? targetPort (this w))%Z); [|exact Inv].
    simpl. destruct (connectingPromise (this w)) as [p|] eqn:Hp.
    + apply no_stale_empty_slot. reflexivity.
    + eapply no_stale_same; [| | |exact Inv]; simpl; auto.
  - unfold setError. destruct (connectingPromise (this w)) as [p|] eqn:Hp.
    + apply no_stale_empty_slot. reflexivity.
    + eapply no_stale_same; [| | |exact Inv]; simpl; auto.
  - destruct (resume_frame_this_fields fu f reply w) as (_ & _ & Hc & Hp).
    eapply no_stale_same; [exact Hc | exact Hp | apply cancelables_resume_frame | exact Inv].
  - unfold socket_on_connect.
    destruct (sockets w !! s) as [[p|srv]|]; try exact Inv.
    destruct (socket (this w)) as [cur|]; [|exact Inv].
    eapply no_stale_channel. unfold_methods. simpl. rewrite this_settle. reflexivity.
  - unfold socket_on_close. destruct (sockets w !! s); [|exact Inv].
    apply no_stale_empty_slot. reflexivity.
  - unfold server_on_connection.
    destruct (servers w !! srv) as [[attempt attached [|]]|]; try exact Inv.
    eapply no_stale_channel. unfold_methods. simpl. rewrite this_settle. reflexivity.
  - unfold server_on_error.
    destruct (servers w !! srv) as [server|]; [|exact Inv].
    destruct (srv_rej_attached server); [|exact Inv].
    intros Hc p c Hp Hs. unfold reject in *. rewrite this_settle in Hc, Hp.
    apply settled_after_reject in Hs. exact (Inv Hc p c Hp Hs).
  - unfold server_on_listening. destruct (servers w !! srv); [|exact Inv].
    eapply no_stale_same; [| | |exact Inv]; reflexivity.
  - destruct (conn_id c <? connections w)%nat; [|exact Inv].
    unfold onLogMessage. destruct (logLevel _ _); [|exact Inv].
    eapply no_stale_same; [| | |exact Inv]; reflexivity.
  - eapply no_stale_same; [| | |exact Inv]; reflexivity.
Qed.

Lemma run_no_stale rc fu acts w :
  no_stale_fulfilment w -> no_stale_fulfilment (run rc fu acts w).
Proof.
  revert w. induction acts as [|a acts IH]; intros w H; simpl; [exact H|].
  apply IH, step_no_stale, H.
Qed.

(** X7.  Along every history of a proxy, from its construction on:
    whenever no channel exists, the attempt in the slot, if there is one,
    has not been fulfilled.  So a [connect()] that does not return the live
    channel returns a promise that is pending or rejected, never one
    already fulfilled with a channel whose socket has since closed. *)
Theorem slot_attempt_is_never_stale
    (RequestCancelled : Z) (fileURLToPath : string -> Settled string)
    (port : Z) (host : string) (verbose : bool) (acts : list Action)
    (p : nat) (c : MessageConnection) :
  let w := run RequestCancelled fileURLToPath acts (new_World port host verbose) in
  clientConnection (this w) = None ->
  connectingPromise (this w) = Some p ->
  settled w (CancelablePromise p) <> Some (Fulfilled c) /\
  snd (connect w) = CancelablePromise p /\
  settled (fst (connect w)) (snd (connect w)) <> Some (Fulfilled c).
Proof.
  intros w Hc Hp.
  assert (Inv : no_stale_fulfilment w).
  { apply run_no_stale, no_stale_empty_slot. reflexivity. }
  assert (Hconn : connect w = (w, CancelablePromise p)).
  { unfold connect. rewrite Hc, Hp. reflexivity. }
  split_and!.
  - exact (Inv Hc p c Hp).
  - rewrite Hconn. reflexivity.
  - rewrite Hconn. exact (Inv Hc p c Hp).
Qed.

(** A channel is set up and lost again, then a request redials. *)
Lemma slot_attempt_is_never_stale_witness :
  let w := run RequestCancelled_code file_path
             [call_connect; event_socket_connect 0; event_socket_close 0;
              call_handleRequest foo_request] fresh in
  clientConnection (this w) = None /\
  connectingPromise (this w) = Some 1 /\
  settled w (CancelablePromise 1)
    <> Some (Fulfilled {| conn_id := 0; conn_socket := 0 |}).
Proof.
  destruct (slot_attempt_is_never_stale RequestCancelled_code file_path
              9000 "localhost" false
              [call_connect; event_socket_connect 0; event_socket_close 0;
               call_handleRequest foo_request]
              1 {| conn_id := 0; conn_socket := 0 |} eq_refl eq_refl) as (H & _).
  cbv zeta. split; [reflexivity|]. split; [reflexivity|]. exact H.
Defined.

(** ** Listeners *)

Lemma EventName_eqb_refl ev : EventName_eqb ev ev = true.
Proof. destruct ev; reflexivity. Qed.

(** X8.  Registering a listener performs no effect and appends it to the
    listeners of its event only.  Emitting an event calls the listeners of
    that event once per registration, in registration order, so a listener
    registered last is called last; in particular [exit()] calls a
    listener registered with [onExit] after those registered before it. *)
Theorem listeners_are_called_in_registration_order
    (w : World) (ev ev' : EventName) (l : Listener) :
  trace (on ev' l w) = trace w /\
  cancelables (on ev' l w) = cancelables w /\
  listeners ev (on ev' l w) =
    listeners ev w ++ (if EventName_eqb ev' ev then [l] else []) /\
  trace (emit ev (on ev l w)) =
    trace w ++ map (Invoke ev) (listeners ev w) ++ [Invoke ev l] /\
  trace (fst (exit (onExit l w))) =
    trace w ++ goodbye (clientConnection (this w))
      ++ map (Invoke ev_exit) (listeners ev_exit w) ++ [Invoke ev_exit l].
Proof.
  assert (Hl : forall e e', listeners e (on e' l w) =
                            listeners e w ++ (if EventName_eqb e' e then [l] else [])).
  { intros e e'. unfold listeners, on. simpl.
    rewrite List.filter_app, map_app. simpl.
    destruct (EventName_eqb e' e); reflexivity. }
  split_and!.
  - reflexivity.
  - reflexivity.
  - apply Hl.
  - unfold emit. cbn [trace perform_all called]. rewrite Hl, EventName_eqb_refl, map_app.
    reflexivity.
  - destruct (exit_world (onExit l w)) as (_ & Htr & _). cbv zeta in Htr.
    rewrite Htr. unfold onExit. rewrite Hl. simpl. rewrite map_app. reflexivity.
Qed.

(** ** The passive strategy *)

Lemma servers_server_close srv w server :
  servers w !! srv = Some server ->
  servers (server_close srv w) !! srv =
    Some {| srv_attempt := srv_attempt server;
            srv_rej_attached := srv_rej_attached server;
            srv_closed := true |}.
Proof.
  intros H. unfold server_close. rewrite H. simpl.
  apply list_lookup_insert_eq. eapply lookup_lt_Some. exact H.
Qed.

(** X9.  The listening server accepts one connection.  On the first
    inbound connection the proxy resets [initialized], closes the server,
    calls the [connect] listeners, logs, builds the channel over the
    accepted socket, and resolves the attempt with it; the attempt slot is
    left as it is.  A further inbound connection on that server changes
    nothing. *)
Theorem server_accepts_one_connection
    (w : World) (srv p : nat) (attached : bool) :
  servers w !! srv =
    Some {| srv_attempt := p; srv_rej_attached := attached; srv_closed := false |} ->
  let c := {| conn_id := connections w; conn_socket := length (sockets w) |} in
  let w1 := server_on_connection srv w in
  initialized (this w1) = false /\
  clientConnection (this w1) = Some c /\
  connectingPromise (this w1) = connectingPromise (this w) /\
  sockets w1 = sockets w ++ [Accepted srv] /\
  cancelables w1 = cancelables (settle p (Resolved c) w) /\
  trace w1 =
    trace w ++ [ServerClose srv] ++ map (Invoke ev_connect) (listeners ev_connect w)
      ++ [LogCall info ("langserver connection established on port "
                          ++ string_of_Z (targetPort (this w)));
          OnNotification c; Listen c] /\
  server_on_connection srv w1 = w1.
Proof.
  intros Hsrv c w1.
  assert (Hclosed : servers w1 !! srv =
            Some {| srv_attempt := p; srv_rej_attached := attached; srv_closed := true |}).
  { unfold w1, server_on_connection. rewrite Hsrv.
    unfold resolve, emit, registerOnNotificationHandler, createMessageConnection.
    cbn [servers perform perform_all called assign with_sockets with_connections].
    rewrite servers_settle.
    cbn [servers perform perform_all called assign with_sockets with_connections].
    exact (servers_server_close srv (assign (set_initialized false) w) _ Hsrv). }
  unfold w1 at 1 2 3 4 5 6. unfold server_on_connection at 1 2 3 4 5 6. rewrite Hsrv.
  unfold resolve, emit, listeners, registerOnNotificationHandler, createMessageConnection.
  cbn [this cancelables trace sockets servers connections perform perform_all called assign
       with_sockets with_connections].
  rewrite this_settle, trace_settle, sockets_settle.
  cbn [this cancelables trace sockets servers connections perform perform_all called assign
       with_sockets with_connections].
  rewrite !trace_server_close, !this_server_close.
  assert (Hsock : sockets (server_close srv (assign (set_initialized false) w)) = sockets w).
  { unfold server_close. destruct (servers _ !! srv); reflexivity. }
  assert (Hconn : connections (server_close srv (assign (set_initialized false) w))
                  = connections w).
  { unfold server_close. destruct (servers _ !! srv); reflexivity. }
  rewrite !Hsock, !Hconn. fold c.
  split_and!; try reflexivity.
  - apply cancelables_settle_ext.
    cbn [cancelables perform perform_all called assign with_sockets with_connections].
    rewrite cancelables_server_close. reflexivity.
  - simpl. rewrite <- !app_assoc. reflexivity.
  - unfold server_on_connection. rewrite Hclosed. reflexivity.
Qed.

Lemma server_accepts_one_connection_witness :
  let w := fst (awaitServerConnection fresh) in
  let c := {| conn_id := 0; conn_socket := 0 |} in
  servers w !! 0 =
    Some {| srv_attempt := 0; srv_rej_attached := true; srv_closed := false |} /\
  clientConnection (this (server_on_connection 0 w)) = Some c /\
  settled (server_on_connection 0 w) (CancelablePromise 0) = Some (Fulfilled c) /\
  server_on_connection 0 (server_on_connection 0 w) = server_on_connection 0 w.
Proof.
  destruct (server_accepts_one_connection (fst (awaitServerConnection fresh)) 0 0 true
              eq_refl) as (_ & Hc & _ & _ & _ & _ & Honce).
  cbv zeta. split; [reflexivity|]. split; [exact Hc|]. split; [reflexivity|]. exact Honce.
Defined.

(** X10.  A listen error on the server of the attempt in the slot rejects
    that attempt and leaves it in the slot.  From then on, while no channel
    exists, [connect()] and [awaitServerConnection()] hand back that
    rejected promise without listening or dialing again, and a
    [handleRequest] call on the open proxy is rejected with the listen
    error. *)
Theorem listen_error_stays_in_the_slot
    (RequestCancelled : Z) (fileURLToPath : string -> Settled string)
    (w : World) (srv p : nat) (closed_srv : bool) (hook : option CancelHook)
    (e : JsValue) (request : LspRequest) (reply : Settled JsValue) :
  servers w !! srv =
    Some {| srv_attempt := p; srv_rej_attached := true; srv_closed := closed_srv |} ->
  cancelables w !! p = Some {| promise := Pending; onCancel := hook |} ->
  connectingPromise (this w) = Some p ->
  clientConnection (this w) = None ->
  closed (this w) = false ->
  let w1 := server_on_error srv e w in
  let f := handleRequest_at_connect (initial_response RequestCancelled) request
             (CancelablePromise p) in
  this w1 = this w /\ trace w1 = trace w /\
  settled w1 (CancelablePromise p) = Some (Rejected e) /\
  connect w1 = (w1, CancelablePromise p) /\
  awaitServerConnection w1 = (w1, CancelablePromise p) /\
  handleRequest RequestCancelled request w1 = (w1, Await f) /\
  resume_frame fileURLToPath f reply w1 = (w1, Throw e).
Proof.
  intros Hsrv Hpending Hp Hc Hopen w1 f.
  assert (Hw1 : w1 = settle p (RejectedWith e) w).
  { unfold w1, server_on_error. rewrite Hsrv. reflexivity. }
  assert (Hthis : this w1 = this w) by (rewrite Hw1; apply this_settle).
  assert (Hs : settled w1 (CancelablePromise p) = Some (Rejected e)).
  { unfold settled. rewrite Hw1. erewrite settle_pending by exact Hpending.
    rewrite list_lookup_insert_eq by (eapply lookup_lt_Some; exact Hpending).
    reflexivity. }
  assert (Hconn : connect w1 = (w1, CancelablePromise p)).
  { unfold connect. rewrite Hthis, Hc, Hp. reflexivity. }
  split_and!.
  - exact Hthis.
  - rewrite Hw1. apply trace_settle.
  - exact Hs.
  - exact Hconn.
  - unfold awaitServerConnection. rewrite Hthis, Hp. reflexivity.
  - rewrite handleRequest_open by (rewrite Hthis; exact Hopen).
    rewrite Hconn. reflexivity.
  - unfold f, resume_frame. rewrite Hs. reflexivity.
Qed.

Lemma listen_error_stays_in_the_slot_witness :
  let w := fst (awaitServerConnection fresh) in
  let e := JsString "EADDRINUSE" in
  let w1 := server_on_error 0 e w in
  servers w !! 0 =
    Some {| srv_attempt := 0; srv_rej_attached := true; srv_closed := false |} /\
  cancelables w !! 0 = Some {| promise := Pending; onCancel := Some (CloseServer 0) |} /\
  connectingPromise (this w) = Some 0 /\ clientConnection (this w) = None /\
  closed (this w) = false /\
  connect w1 = (w1, CancelablePromise 0) /\
  resume_frame file_path
    (handleRequest_at_connect (initial_response RequestCancelled_code) foo_request
       (CancelablePromise 0)) (Fulfilled JsNull) w1 = (w1, Throw e).
Proof.
  destruct (listen_error_stays_in_the_slot RequestCancelled_code file_path
              (fst (awaitServerConnection fresh)) 0 0 false (Some (CloseServer 0))
              (JsString "EADDRINUSE") foo_request (Fulfilled JsNull)
              eq_refl eq_refl eq_refl eq_refl eq_refl)
    as (_ & _ & _ & Hconn & _ & _ & Hthrow).
  cbv zeta. split; [reflexivity|]. split; [reflexivity|]. split; [reflexivity|].
  split; [reflexivity|]. split; [reflexivity|]. split; [exact Hconn | exact Hthrow].
Defined.

(** X11.  Once the server is listening, [rej] is no longer its [error]
    listener.  A later error of that server settles no attempt and assigns
    no field: the event has no listener left, so the emitter throws the
    error.  Listening itself only logs. *)
Theorem listening_detaches_the_error_listener
    (w : World) (srv : nat) (server : ServerInfo) (e : JsValue) :
  servers w !! srv = Some server ->
  let w1 := server_on_listening srv w in
  let w2 := server_on_error srv e w1 in
  this w1 = this w /\ cancelables w1 = cancelables w /\
  trace w1 =
    trace w ++ [LogCall info ("Wait langserver connection on port "
                                ++ string_of_Z (targetPort (this w)))] /\
  w2 = perform (Uncaught e) w1 /\
  this w2 = this w /\ cancelables w2 = cancelables w.
Proof.
  intros Hsrv w1 w2.
  assert (Hw1 : w1 = perform (LogCall info ("Wait langserver connection on port "
                                              ++ string_of_Z (targetPort (this w))))
                       (with_servers
                          (<[srv := {| srv_attempt := srv_attempt server;
                                       srv_rej_attached := false;
                                       srv_closed := srv_closed server |}]> (servers w))
                          w)).
  { unfold w1, server_on_listening. rewrite Hsrv. reflexivity. }
  assert (Hw2 : w2 = perform (Uncaught e) w1).
  { unfold w2, server_on_error. rewrite Hw1. cbn [servers perform with_servers].
    rewrite list_lookup_insert_eq by (eapply lookup_lt_Some; exact Hsrv).
    reflexivity. }
  split_and!.
  - rewrite Hw1. reflexivity.
  - rewrite Hw1. reflexivity.
  - rewrite Hw1. reflexivity.
  - exact Hw2.
  - rewrite Hw2, Hw1. reflexivity.
  - rewrite Hw2, Hw1. reflexivity.
Qed.

Lemma listening_detaches_the_error_listener_witness :
  let w := fst (awaitServerConnection fresh) in
  let e := JsString "EMFILE" in
  let w2 := server_on_error 0 e (server_on_listening 0 w) in
  servers w !! 0 =
    Some {| srv_attempt := 0; srv_rej_attached := true; srv_closed := false |} /\
  settled w2 (CancelablePromise 0) = None /\
  trace w2 = [ServerListen 0 9000;
              LogCall info "Wait langserver connection on port 9000";
              Uncaught e].
Proof.
  destruct (listening_detaches_the_error_listener (fst (awaitServerConnection fresh)) 0
              {| srv_attempt := 0; srv_rej_attached := true; srv_closed := false |}
              (JsString "EMFILE") eq_refl) as (_ & _ & _ & Hw2 & _).
  cbv zeta. split; [reflexivity|]. rewrite Hw2. split; reflexivity.
Defined.

(** ** Log messages of unknown severity *)

(** X12.  A log-message notification whose [type] is none of the four
    message types is dropped: the handler calls no logger method and
    changes nothing. *)
Theorem unknown_severity_is_dropped (w : World) (type : Z) (message : string) :
  (type < 1 \/ 4 < type)%Z ->
  onLogMessage type message w = w.
Proof.
  intros Htype. unfold onLogMessage, logLevel,
    MessageType.Log, MessageType.Info, MessageType.Warning, MessageType.Error.
  destruct (Z.eqb_spec type 4); [lia|].
  destruct (Z.eqb_spec type 3); [lia|].
  destruct (Z.eqb_spec type 2); [lia|].
  destruct (Z.eqb_spec type 1); [lia|].
  reflexivity.
Qed.

Lemma unknown_severity_is_dropped_witness :
  (5 < 1 \/ 4 < 5)%Z /\ onLogMessage 5 "trace" connected = connected.
Proof.
  assert (H : (5 < 1 \/ 4 < 5)%Z) by (right; reflexivity).
  split; [exact H|]. exact (unknown_severity_is_dropped connected 5 "trace" H).
Defined.

(** ** Fields and the actions that assign them *)

(** X13.  The [initialized] flag is set by one thing only, the resumption
    of an [initialize] call whose request succeeded, and cleared by one
    thing only, the acceptance of an inbound connection by a listening
    server.  Neither the close of a socket nor a new dialed connection
    clears it. *)
Theorem initialized_is_set_and_cleared_by_one_action_each
    (RequestCancelled : Z) (fileURLToPath : string -> Settled string)
    (w : World) (a : Action) :
  (initialized (this w) = true ->
   initialized (this (step RequestCancelled fileURLToPath a w)) = false ->
   exists srv, a = event_server_connection srv) /\
  (initialized (this w) = false ->
   initialized (this (step RequestCancelled fileURLToPath a w)) = true ->
   exists clientConn rootUri r,
     a = resume (initialize_at_sendRequest clientConn rootUri) (Fulfilled r)).
Proof.
  split; intros H0 H1.
  - destruct a; try (eexists; reflexivity); exfalso; revert H1;
      try (destruct f); simpl; unfold_methods; this_field.
  - destruct a; try (destruct f; try destruct reply);
      try (do 3 eexists; reflexivity); exfalso; revert H1;
      simpl; unfold_methods; this_field.
Qed.

(** The channel is lost and dialed again: the flag set by [initialize]
    survives, and only an accepted connection clears it. *)
Lemma initialized_is_set_and_cleared_by_one_action_each_witness :
  let w := assign (set_initialized true) connected in
  let w' := run RequestCancelled_code file_path
              [event_socket_close 0; call_connect; event_socket_connect 1] w in
  initialized (this w') = true /\
  clientConnection (this w') = Some {| conn_id := 1; conn_socket := 1 |} /\
  initialized (this w) = true /\
  initialized (this (step RequestCancelled_code file_path (event_server_connection 0)
                       (fst (awaitServerConnection (socket_on_close 0 w))))) = false /\
  exists srv, event_server_connection 0 = event_server_connection srv.
Proof.
  cbv zeta. split; [reflexivity|]. split; [reflexivity|]. split; [reflexivity|].
  split; [reflexivity|].
  apply (initialized_is_set_and_cleared_by_one_action_each RequestCancelled_code file_path
           (fst (awaitServerConnection
                   (socket_on_close 0 (assign (set_initialized true) connected))))
           (event_server_connection 0)); reflexivity.
Defined.

(** X14.  No action changes the target host, and the target port changes
    only through [changePort], to the port it is called with. *)
Theorem target_changes_only_through_changePort
    (RequestCancelled : Z) (fileURLToPath : string -> Settled string)
    (w : World) (a : Action) :
  targetHost (this (step RequestCancelled fileURLToPath a w)) = targetHost (this w) /\
  (targetPort (this (step RequestCancelled fileURLToPath a w)) <> targetPort (this w) ->
   a = call_changePort (targetPort (this (step RequestCancelled fileURLToPath a w)))).
Proof.
  split.
  - destruct a; try (destruct f); simpl; unfold_methods; this_field.
  - intros H. destruct a; try (destruct f);
      try (exfalso; revert H; simpl; unfold_methods; this_field; fail).
    revert H. simpl. unfold changePort.
    destruct (negb (port =? targetPort (this w))%Z); [|congruence].
    simpl. destruct (connectingPromise (this w)); simpl;
      rewrite ?this_cancel; reflexivity.
Qed.

Lemma target_changes_only_through_changePort_witness :
  (targetPort (this (step RequestCancelled_code file_path (call_changePort 9001)
                       connected))
   <> targetPort (this connected)) /\
  call_changePort 9001 =
    call_changePort
      (targetPort (this (step RequestCancelled_code file_path (call_changePort 9001)
                           connected))) /\
  targetHost (this (step RequestCancelled_code file_path (call_changePort 9001)
                      connected)) = "localhost".
Proof.
  destruct (target_changes_only_through_changePort RequestCancelled_code file_path
              connected (call_changePort 9001)) as [Hhost Hport].
  assert (Hne : targetPort (this (step RequestCancelled_code file_path
                                    (call_changePort 9001) connected))
                <> targetPort (this connected)) by discriminate.
  split; [exact Hne|]. split.
  - exact (Hport Hne).
  - rewrite Hhost. reflexivity.
Defined.

(** ** setError with a value that is not an error *)

(** X15.  [setError] with a falsy value ([null], [undefined], [false], [0]
    or the empty string) still empties the attempt slot but leaves no
    sticky error behind: the next [initialize] does not throw, it runs
    [connect()] and suspends on its promise like a call on a proxy that
    never had an error. *)
Theorem setError_with_falsy_value_clears_the_error
    (w : World) (err : JsValue)
    (clientCapabilities : JsValue) (workspaceFolders : WorkspaceFolder)
    (initOptions : option (list (string * JsValue))) :
  truthy err = false ->
  let w' := setError err w in
  error (this w') = err /\
  connectingPromise (this w') = None /\
  initialize clientCapabilities workspaceFolders initOptions w' =
    (fst (connect w'),
     Await (initialize_at_connect clientCapabilities workspaceFolders initOptions
              (snd (connect w')))).
Proof.
  intros Herr w'.
  assert (Hthis : error (this w') = err /\ connectingPromise (this w') = None).
  { unfold w', setError.
    destruct (connectingPromise (this w)) eqn:Hslot; simpl;
      rewrite ?this_cancel, ?Hslot; split; reflexivity. }
  destruct Hthis as [He Hp]. split_and!; try assumption.
  unfold initialize. rewrite He, Herr. destruct (connect w'). reflexivity.
Qed.

(** A poisoned proxy is cleared with [setError(null)]. *)
Lemma setError_with_falsy_value_clears_the_error_witness :
  let w := setError (JsString "launch failed") fresh in
  truthy JsNull = false /\
  initialize (JsObject []) proj_folder None w = (w, Throw (JsString "launch failed")) /\
  snd (initialize (JsObject []) proj_folder None (setError JsNull w)) =
    Await (initialize_at_connect (JsObject []) proj_folder None (CancelablePromise 0)).
Proof.
  destruct (setError_with_falsy_value_clears_the_error
              (setError (JsString "launch failed") fresh) JsNull
              (JsObject []) proj_folder None eq_refl) as (_ & _ & Hinit).
  cbv zeta. split; [reflexivity|]. split; [reflexivity|].
  rewrite Hinit. reflexivity.
Defined.

(** ** Resumptions *)

(** X16.  A suspended call pays no attention to [closed] when it resumes:
    resuming it on a world with the flag set to [b] does what resuming it
    on the world itself does, the flag apart.  A request that was waiting
    for the connection when [exit()] ran is therefore still forwarded when
    the connection arrives. *)
Theorem resumption_ignores_closed
    (fileURLToPath : string -> Settled string)
    (f : Frame) (reply : Settled JsValue) (w : World) (b : bool) :
  resume_frame fileURLToPath f reply (assign (set_closed b) w) =
    (assign (set_closed b) (fst (resume_frame fileURLToPath f reply w)),
     snd (resume_frame fileURLToPath f reply w)).
Proof.
  destruct f; simpl;
    try (destruct (settled w p) as [[conn|e]|] eqn:Hs;
         change (settled (assign (set_closed b) w) p) with (settled w p);
         rewrite ?Hs);
    unfold_methods; simpl;
    repeat (case_match; simpl in *; simplify_eq); reflexivity.
Qed.



(** ** shutdown *)

(** X18.  [shutdown()] on an open proxy with a channel logs, sends one
    [shutdown] request without parameters over the channel and returns the
    backend's result; a rejection of the request is propagated, not
    wrapped.  It assigns no field of the proxy: the proxy is still open
    and still has its channel, so a later [handleRequest] is forwarded
    over it rather than answered with the closed-proxy error. *)
Theorem shutdown_leaves_the_proxy_open
    (RequestCancelled : Z) (fileURLToPath : string -> Settled string)
    (w : World) (c : MessageConnection) (r e : JsValue) (request : LspRequest) :
  closed (this w) = false ->
  clientConnection (this w) = Some c ->
  let f1 := shutdown_at_connect (PromiseResolve c) in
  let w2 := fst (resume_frame fileURLToPath f1 (Fulfilled r) w) in
  let w3 := fst (resume_frame fileURLToPath shutdown_at_sendRequest (Fulfilled r) w2) in
  shutdown w = (w, Await f1) /\
  snd (resume_frame fileURLToPath f1 (Fulfilled r) w) = Await shutdown_at_sendRequest /\
  snd (resume_frame fileURLToPath shutdown_at_sendRequest (Fulfilled r) w2)
    = Return (RetValue r) /\
  resume_frame fileURLToPath shutdown_at_sendRequest (Rejected e) w2 = (w2, Throw e) /\
  trace w3 = trace w ++ [LogCall info "sending shutdown request";
                         SendRequest c "shutdown" []] /\
  this w3 = this w /\
  handleRequest RequestCancelled request w3 =
    (w3, Await (handleRequest_at_connect (initial_response RequestCancelled) request
                  (PromiseResolve c))).
Proof.
  intros Hopen Hc f1 w2 w3.
  assert (Hconn : connect w = (w, PromiseResolve c)).
  { unfold connect. rewrite Hc. reflexivity. }
  assert (Hthis : this w3 = this w) by reflexivity.
  split_and!; try reflexivity.
  - unfold shutdown. rewrite Hconn. reflexivity.
  - simpl. rewrite <- app_assoc. reflexivity.
  - assert (Hconn3 : connect w3 = (w3, PromiseResolve c)).
    { unfold connect. rewrite Hthis, Hc. reflexivity. }
    rewrite handleRequest_open by (rewrite Hthis; exact Hopen).
    rewrite Hconn3. reflexivity.
Qed.

Lemma shutdown_leaves_the_proxy_open_witness :
  let c := {| conn_id := 0; conn_socket := 0 |} in
  let w3 := fst (resume_frame file_path shutdown_at_sendRequest (Fulfilled JsNull)
                   (fst (resume_frame file_path (shutdown_at_connect (PromiseResolve c))
                           (Fulfilled JsNull) connected))) in
  closed (this connected) = false /\ clientConnection (this connected) = Some c /\
  closed (this w3) = false /\
  handleRequest RequestCancelled_code foo_request w3 =
    (w3, Await (handleRequest_at_connect (initial_response RequestCancelled_code)
                  foo_request (PromiseResolve c))).
Proof.
  destruct (shutdown_leaves_the_proxy_open RequestCancelled_code file_path connected
              {| conn_id := 0; conn_socket := 0 |} JsNull JsNull foo_request
              eq_refl eq_refl) as (_ & _ & _ & _ & _ & _ & Hreq).
  cbv zeta. split; [reflexivity|]. split; [reflexivity|]. split; [reflexivity|].
  exact Hreq.
Defined.
